(** * crypto-tax-calculator: FIFO ledger and event classification

    A shallow embedding of [main.go] (the processing pass with its handlers,
    the inventory and gains helpers, and the Kraken group classification of
    [parseCSVFile]) together with the properties of the ledger.

    Conventions of the embedding:
    - a [decimal.Decimal] is modelled by the rational number it denotes;
      [Add], [Sub], [Mul], [Abs], [Cmp] are exact, [Div] rounds to
      [DivisionPrecision] = 16 decimal places, half away from zero, as
      shopspring/decimal does;
    - a [time.Time] is an instant in nanoseconds together with the offset of
      its location; [Duration.Hours] and the holding period are IEEE-754
      binary64 computations, modelled with [SpecFloat];
    - the [*State] that the handlers mutate is passed explicitly, and every
      [log.Printf] appends an event to the returned log;
    - [sort.Slice] is not stable and its algorithm depends on the Go release:
      it is a parameter ([SliceSort]) specified by [SliceSortSpec];
      [insertionSort] is the instance used for evaluation.

    The second part of the development embeds the rest of [main.go] from the
    rows of a file on: the parsing pass ([parseCSVFile] with its helpers),
    [mergeAndSortTxs], the filters of [main] and [printSummary].  There,
    - a row is the map from header to cell that [parseCSVFile] builds; the
      reader of the CSV file is not embedded;
    - [decimal.NewFromString], [time.Parse] and [filepath.Base] are taken as
      they are ([ParseLib]);
    - the order in which Go ranges over a map is a parameter of the function
      that ranges; the properties hold for every order without repetition;
    - what is printed is the list of the lines, with the amounts as
      numbers. *)

From Stdlib Require Import ZArith QArith Qabs Qround Lia Lqa Ascii String List Sorted Permutation.
From Stdlib Require Import Floats.SpecFloat.
From stdpp Require Import base option list sorting gmap strings fin_maps.

Local Open Scope Z_scope.

(** ** shopspring/decimal, by value *)

Module decimal.

Abbreviation Decimal := Q (only parsing).

Definition Zero : Decimal := 0%Q.
Definition Add (d d2 : Decimal) : Decimal := (d + d2)%Q.
Definition Sub (d d2 : Decimal) : Decimal := (d - d2)%Q.
Definition Mul (d d2 : Decimal) : Decimal := (d * d2)%Q.
Definition Abs (d : Decimal) : Decimal := Qabs d.

(** [Cmp] returns -1, 0 or 1. *)
Definition Cmp (d d2 : Decimal) : Z :=
  match (d ?= d2)%Q with Lt => -1 | Eq => 0 | Gt => 1 end.

Definition IsZero (d : Decimal) : bool := Cmp d Zero =? 0.

Definition DivisionPrecision : Z := 16.

(** Nearest integer, a tie going away from zero. *)
Definition roundHalfAway (x : Q) : Z :=
  Z.sgn (Qnum x) * ((2 * Z.abs (Qnum x) + Z.pos (Qden x)) / (2 * Z.pos (Qden x))).

(** [DivRound] divides and rounds to an integer multiple of
    [10^(-precision)]; a remainder of exactly one half is rounded away
    from zero.  Go panics on a zero divisor: every call of [Div] in
    [main.go] is guarded by [IsZero], and the value given here to a zero
    divisor is never used. *)
Definition DivRound (d d2 : Decimal) (precision : Z) : Decimal :=
  (inject_Z (roundHalfAway (d / d2 * inject_Z (10 ^ precision))) / inject_Z (10 ^ precision))%Q.

Definition Div (d d2 : Decimal) : Decimal := DivRound d d2 DivisionPrecision.

(** [decimal.NewFromFloat(1e-12)] and [decimal.NewFromFloat(1e-9)]: the
    shortest decimal that round-trips, that is, the literal itself. *)
Definition NewFromFloat_1e_12 : Decimal := (1 # 1000000000000)%Q.
Definition NewFromFloat_1e_9 : Decimal := (1 # 1000000000)%Q.

End decimal.
Import decimal.

Definition minDecimal (a b : Decimal) : Decimal :=
  if Cmp a b <=? 0 then a else b.

(** ** float64, as far as [Duration.Hours] needs it *)

Definition float64 := spec_float.

(** Conversion of an integer to float64 (round to nearest, ties to even). *)
Definition float64_of_Z (z : Z) : float64 := binary_normalize 53 1024 z 0 false.
Definition float64_add : float64 -> float64 -> float64 := SFadd 53 1024.
Definition float64_div : float64 -> float64 -> float64 := SFdiv 53 1024.

(** The comparison [x >= y] of Go; false when either side is a NaN. *)
Definition float64_ge (x y : float64) : bool :=
  match SFcompare x y with
  | Some Gt | Some Eq => true
  | _ => false
  end.

(** ** time.Time and time.Duration *)

(** An instant (nanoseconds since 1970-01-01T00:00:00Z) and the offset, in
    seconds east of UTC, of the time's location at that instant. *)
Record Time := mkTime { unixNano : Z; zoneOffset : Z }.

(** A [Duration] is an int64 count of nanoseconds. *)
Definition Duration := Z.
Definition minDuration : Duration := - 2 ^ 63.
Definition maxDuration : Duration := 2 ^ 63 - 1.
Definition Hour : Duration := 3600000000000.

Module time.

Definition Before (t u : Time) : bool := unixNano t <? unixNano u.
Definition Equal (t u : Time) : bool := unixNano t =? unixNano u.

(** [t.Sub(u)]: the difference, or the extreme Duration when it does not
    fit. *)
Definition Sub (t u : Time) : Duration :=
  let d := unixNano t - unixNano u in
  if (minDuration <=? d) && (d <=? maxDuration) then d
  else if Before t u then minDuration else maxDuration.

(** [d.Hours()]: integer division and remainder truncate toward zero. *)
Definition Hours (d : Duration) : float64 :=
  let hour := Z.quot d Hour in
  let nsec := Z.rem d Hour in
  float64_add (float64_of_Z hour)
              (float64_div (float64_of_Z nsec) (float64_of_Z (60 * 60 * 1000000000))).

(** [t.Year()]: the year of the proleptic Gregorian calendar in the time's
    location; days are counted from 0001-01-01. *)
Definition Year (t : Time) : Z :=
  let sec := unixNano t `div` 1000000000 + zoneOffset t in
  let days := sec `div` 86400 + 719162 in
  let n400 := days `div` 146097 in
  let d := days `mod` 146097 in
  let n100 := d `div` 36524 in
  let n100 := n100 - Z.shiftr n100 2 in
  let d := d - 36524 * n100 in
  let n4 := d `div` 1461 in
  let d := d - 1461 * n4 in
  let n := d `div` 365 in
  let n := n - Z.shiftr n 2 in
  400 * n400 + 100 * n100 + 4 * n4 + n + 1.

End time.

(** ** package strings, on ASCII *)

Module strings.

(** Code points outside ASCII are left as they are. *)
Definition lowerByte (c : ascii) : ascii :=
  let n := nat_of_ascii c in
  if ((65 <=? n) && (n <=? 90))%nat then ascii_of_nat (n + 32) else c.

Fixpoint ToLower (s : string) : string :=
  match s with
  | EmptyString => EmptyString
  | String c s' => String (lowerByte c) (ToLower s')
  end.

(** White space: tab, line feed, vertical tab, form feed, carriage return
    and space. *)
Definition isSpace (c : ascii) : bool :=
  let n := nat_of_ascii c in
  (((9 <=? n) && (n <=? 13)) || (n =? 32))%nat.

Fixpoint trimLeft (s : string) : string :=
  match s with
  | EmptyString => EmptyString
  | String c s' => if isSpace c then trimLeft s' else s
  end.

Fixpoint trimRight (s : string) : string :=
  match s with
  | EmptyString => EmptyString
  | String c s' =>
      match trimRight s' with
      | EmptyString => if isSpace c then EmptyString else String c EmptyString
      | r => String c r
      end
  end.

Definition TrimSpace (s : string) : string := trimRight (trimLeft s).

Fixpoint Contains (s substr : string) : bool :=
  String.prefix substr s ||
  match s with
  | EmptyString => false
  | String _ s' => Contains s' substr
  end.

End strings.

(** ** Data models *)

Record Tx := mkTx {
  Wallet : string;
  Time_ : Time;
  Type_ : string;
  Commodity : string;
  Currency : string;
  Amount : Decimal;
  Cost : Decimal;
  PricePerUnit : Decimal;
  Fee : Decimal;
  Raw : gmap string string;
  SourceFile : string;
  ReferenceID : string;
  PairedComment : string
}.

Record InventoryEntry := mkInventoryEntry {
  entryTime : Time;
  entryAmount : Decimal;
  UnitCost : Decimal;
  TotalCost : Decimal;
  SourceFiles : list string
}.

Record Gains := mkGains { Short : Decimal; Long : Decimal; Income : Decimal }.

(** wallet -> commodity -> lots, and year -> wallet -> commodity -> Gains. *)
Abbreviation InventoriesMap := (gmap string (gmap string (list InventoryEntry))).
Abbreviation TaxYearsMap := (gmap Z (gmap string (gmap string Gains))).

Record State := mkState {
  Inventories : InventoriesMap;
  TaxYears : TaxYearsMap;
  Verbose : bool;
  WalletFilter : gmap string bool;
  CommodityFilter : gmap string bool
}.

Definition withInventories (s : State) (inv : InventoriesMap) : State :=
  mkState inv (TaxYears s) (Verbose s) (WalletFilter s) (CommodityFilter s).

Definition withTaxYears (s : State) (ty : TaxYearsMap) : State :=
  mkState (Inventories s) ty (Verbose s) (WalletFilter s) (CommodityFilter s).

Definition NewState (verbose : bool) (walletFilters commodityFilters : list string) : State :=
  let wf := foldl (fun (wf : gmap string bool) w =>
                     let w := strings.TrimSpace w in
                     if decide (w = "") then wf else <[w := true]> wf)
                  ∅ walletFilters in
  let cf := foldl (fun (cf : gmap string bool) c =>
                     let c := strings.ToLower (strings.TrimSpace c) in
                     if decide (c = "") then cf else <[c := true]> cf)
                  ∅ commodityFilters in
  mkState ∅ ∅ verbose wf cf.

(** ** The log *)

(** One constructor for each [log.Printf] of the processing pass, carrying
    the values that the call formats. *)
Inductive LogEvent :=
| LogProcessing (tx : Tx)
| LogBuy (wallet commodity : string) (amount unitCost total : Decimal)
| LogIncome (wallet commodity : string) (amount value : Decimal) (year : Z)
| LogSell (wallet commodity : string) (amount proceeds fee : Decimal)
| LogConsumed (t : Time) (use unitCost cost proceeds gain : Decimal)
              (holdingDays : float64) (long : bool)
| LogSellWarning (amount : Decimal) (wallet commodity : string) (remaining : Decimal)
| LogTransferMissingSource (ref : string)
| LogTransferWarning (moved requested : Decimal) (commodity srcWallet destWallet : string).

(** What a handler leaves behind: the mutated state, the lines it logged and
    the [error] it returned ([None] for [nil]). *)
Definition error := string.
Record Ret := mkRet { ret_state : State; ret_log : list LogEvent; ret_err : option error }.

(** A handler of the model answers [None] on the one input that the
    embedding does not cover, see [handleTransfer]. *)
Definition txHandlerFunc := State -> Tx -> option Ret.

(** ** sort.Slice *)

(** The comparison that [addInventory] hands to [sort.Slice]. *)
Definition lessByTime (a b : InventoryEntry) : bool :=
  time.Before (entryTime a) (entryTime b).

(** Oldest first: [b] is not before [a]. *)
Definition notAfter (a b : InventoryEntry) : Prop :=
  unixNano (entryTime a) <= unixNano (entryTime b).

Class SliceSort := sort_Slice : list InventoryEntry -> list InventoryEntry.

(** The contract of [sort.Slice]: the slice is permuted into an order in
    which no element is less than its predecessor. *)
Class SliceSortSpec (sorter : SliceSort) : Prop := {
  sort_Slice_perm : forall l, sort_Slice l ≡ₚ l;
  sort_Slice_sorted : forall l, Sorted notAfter (sort_Slice l)
}.

(** Insertion sort, which is what [sort.Slice] runs on a slice of at most
    12 elements (Go 1.19 and later): each element sinks to the left while
    it is less than its predecessor. *)
Fixpoint insertByTime (x : InventoryEntry) (l : list InventoryEntry) : list InventoryEntry :=
  match l with
  | [] => [x]
  | y :: l' => if lessByTime x y then x :: y :: l' else y :: insertByTime x l'
  end.

Definition insertionSort (l : list InventoryEntry) : list InventoryEntry :=
  foldl (fun sorted x => insertByTime x sorted) [] l.

#[export] Instance insertion_sorter : SliceSort := insertionSort.

(** ** Inventory and gains helpers *)

(** [inv[wallet][commodity]] read from the nested map: a missing key gives
    the nil slice. *)
Definition bucket (inv : InventoriesMap) (wallet commodity : string) : list InventoryEntry :=
  default [] (inv !! wallet ≫= fun m => m !! commodity).

(** [inv[wallet][commodity] = l]; every such assignment in [main.go] follows
    [ensureInventoryBucket], so that the inner map exists. *)
Definition setBucket (inv : InventoriesMap) (wallet commodity : string)
    (l : list InventoryEntry) : InventoriesMap :=
  <[wallet := <[commodity := l]> (default ∅ (inv !! wallet))]> inv.

Definition ensureInventoryBucket (s : State) (wallet commodity : string) : State :=
  let inv := Inventories s in
  let inv := match inv !! wallet with
             | Some _ => inv
             | None => <[wallet := ∅]> inv
             end in
  let inv := match inv !! wallet ≫= fun m => m !! commodity with
             | Some _ => inv
             | None => setBucket inv wallet commodity []
             end in
  withInventories s inv.

Definition zeroGains : Gains := mkGains Zero Zero Zero.

(** The [Gains] that [TaxYears[year][wallet][commodity]] points to. *)
Definition gainsAt (ty : TaxYearsMap) (year : Z) (wallet commodity : string) : option Gains :=
  ty !! year ≫= fun ym => ym !! wallet ≫= fun wm => wm !! commodity.

(** A write through the pointer that [getGainsSlot] returned. *)
Definition storeGains (s : State) (year : Z) (wallet commodity : string) (g : Gains) : State :=
  let ty := TaxYears s in
  let ym := default ∅ (ty !! year) in
  let wm := default ∅ (ym !! wallet) in
  withTaxYears s (<[year := <[wallet := <[commodity := g]> wm]> ym]> ty).

(** Get or create the gains entry for year/wallet/commodity: the state with
    the entry in place, and the entry. *)
Definition getGainsSlot (s : State) (year : Z) (wallet commodity : string) : State * Gains :=
  let ty := TaxYears s in
  let ty := match ty !! year with
            | Some _ => ty
            | None => <[year := ∅]> ty
            end in
  let ym := default ∅ (ty !! year) in
  let ty := match ym !! wallet with
            | Some _ => ty
            | None => <[year := <[wallet := ∅]> ym]> ty
            end in
  let s := withTaxYears s ty in
  match gainsAt ty year wallet commodity with
  | Some g => (s, g)
  | None => (storeGains s year wallet commodity zeroGains, zeroGains)
  end.

(** [holdingDays := tx.Time.Sub(entry.Time).Hours() / 24.0] *)
Definition holdingDaysOf (sale acquired : Time) : float64 :=
  float64_div (time.Hours (time.Sub sale acquired)) (float64_of_Z 24).

(** [holdingDays >= 365.0] *)
Definition isLongTerm (holdingDays : float64) : bool :=
  float64_ge holdingDays (float64_of_Z 365).

Section Handlers.

Context {sorter : SliceSort}.

Definition addInventory (s : State) (wallet commodity : string) (entry : InventoryEntry) : State :=
  let s := ensureInventoryBucket s wallet commodity in
  let inv := Inventories s in
  (* keep sorted oldest first *)
  withInventories s
    (setBucket inv wallet commodity (sort_Slice (bucket inv wallet commodity ++ [entry]))).

(** *** Handler implementations *)

Definition handleBuy (s : State) (tx : Tx) : option Ret :=
  let wallet := Wallet tx in
  let commodity := Commodity tx in
  let amount := Abs (Amount tx) in
  let unitCost := if negb (IsZero amount) then Div (Cost tx) amount else Zero in
  let entry := mkInventoryEntry (Time_ tx) amount unitCost (Mul unitCost amount)
                                [SourceFile tx] in
  let log := if Verbose s
             then [LogBuy wallet commodity amount unitCost (TotalCost entry)]
             else [] in
  Some (mkRet (addInventory s wallet commodity entry) log None).

Definition handleIncome (s : State) (tx : Tx) : option Ret :=
  let wallet := Wallet tx in
  let commodity := Commodity tx in
  let amount := Amount tx in
  if IsZero amount then Some (mkRet s [] None)
  else
    let amountAbs := Abs amount in
    (* Use provided cost if available; otherwise zero *)
    let totalCost := if negb (IsZero (Cost tx)) then Cost tx else Zero in
    let unitCost :=
      if negb (IsZero (Cost tx))
      then (if negb (IsZero amountAbs) then Div totalCost amountAbs else Zero)
      else Zero in
    let entry := mkInventoryEntry (Time_ tx) amountAbs unitCost totalCost [SourceFile tx] in
    let s := addInventory s wallet commodity entry in
    let year := time.Year (Time_ tx) in
    let '(s, slot) := getGainsSlot s year wallet commodity in
    let s := storeGains s year wallet commodity
               (mkGains (Short slot) (Long slot) (Add (Income slot) totalCost)) in
    let log := if Verbose s
               then [LogIncome wallet commodity amountAbs totalCost year]
               else [] in
    Some (mkRet s log None).

(** The variables of the FIFO loop of [handleSell]; the state is carried
    along because [getGainsSlot] writes to it. *)
Record sellLoop := mkSellLoop {
  sl_state : State;
  sl_remaining : Decimal;
  sl_proceedsRemaining : Decimal;
  sl_newInv : list InventoryEntry;
  sl_log : list LogEvent
}.

(** One iteration of [for i := 0; i < len(inv); i++] on [entry = inv[i]]. *)
Definition sellStep (tx : Tx) (wallet commodity : string) (amount proceedsTotal : Decimal)
    (l : sellLoop) (entry : InventoryEntry) : sellLoop :=
  if Cmp (sl_remaining l) Zero <=? 0 then
    mkSellLoop (sl_state l) (sl_remaining l) (sl_proceedsRemaining l)
               (sl_newInv l ++ [entry]) (sl_log l)
  else if Cmp (entryAmount entry) Zero <=? 0 then l
  else
    let use := minDecimal (entryAmount entry) (sl_remaining l) in
    let portionCostBasis := Mul (UnitCost entry) use in
    (* allocate matching portion of proceeds proportionally *)
    let portionProceeds :=
      if negb (IsZero amount) then Div (Mul proceedsTotal use) amount else Zero in
    (* determine holding period *)
    let holdingDays := holdingDaysOf (Time_ tx) (entryTime entry) in
    let year := time.Year (Time_ tx) in
    let '(s, gainsSlot) := getGainsSlot (sl_state l) year wallet commodity in
    let gain := Sub portionProceeds portionCostBasis in
    let long := isLongTerm holdingDays in
    let s := storeGains s year wallet commodity
               (if long
                then mkGains (Short gainsSlot) (Add (Long gainsSlot) gain) (Income gainsSlot)
                else mkGains (Add (Short gainsSlot) gain) (Long gainsSlot) (Income gainsSlot)) in
    let log := if Verbose s
               then [LogConsumed (entryTime entry) use (UnitCost entry) portionCostBasis
                                 portionProceeds gain holdingDays long]
               else [] in
    (* decrease the entry amount *)
    let amount' := Sub (entryAmount entry) use in
    let entry' := mkInventoryEntry (entryTime entry) amount' (UnitCost entry)
                                   (Mul (UnitCost entry) amount') (SourceFiles entry) in
    mkSellLoop s
               (Sub (sl_remaining l) use)
               (Sub (sl_proceedsRemaining l) portionProceeds)
               (if Cmp (entryAmount entry') NewFromFloat_1e_12 >? 0
                then sl_newInv l ++ [entry'] else sl_newInv l)
               (sl_log l ++ log).

Definition handleSell (s : State) (tx : Tx) : option Ret :=
  let wallet := Wallet tx in
  let commodity := Commodity tx in
  let amount := Abs (Amount tx) in (* amount sold *)
  if IsZero amount then Some (mkRet s [] None)
  else
    let s := ensureInventoryBucket s wallet commodity in
    let inv := bucket (Inventories s) wallet commodity in
    let proceedsTotal := Cost tx in
    (* If cost field was not provided, attempt to compute proceeds from price*amount *)
    let proceedsTotal :=
      if IsZero proceedsTotal
      then (if negb (IsZero (PricePerUnit tx)) then Mul (PricePerUnit tx) amount
            else proceedsTotal)
      else proceedsTotal in
    (* Fees reduce proceeds for sells *)
    let proceedsTotal := Sub proceedsTotal (Fee tx) in
    let log := if Verbose s
               then [LogSell wallet commodity amount proceedsTotal (Fee tx)]
               else [] in
    (* iterate FIFO *)
    let l := foldl (sellStep tx wallet commodity amount proceedsTotal)
                   (mkSellLoop s amount proceedsTotal [] log) inv in
    let s := sl_state l in
    let eps := NewFromFloat_1e_9 in
    let log := if Cmp (sl_remaining l) eps >? 0
               then (if Verbose s
                     then sl_log l ++ [LogSellWarning amount wallet commodity (sl_remaining l)]
                     else sl_log l)
               else sl_log l in
    Some (mkRet (withInventories s (setBucket (Inventories s) wallet commodity (sl_newInv l)))
                log None).

Definition handleConvert (s : State) (tx : Tx) : option Ret :=
  if Cmp (Amount tx) Zero <? 0 then handleSell s tx (* treat as sell *)
  else if Cmp (Amount tx) Zero >? 0 then handleBuy s tx (* treat as buy *)
  else Some (mkRet s [] None).

Record transferLoop := mkTransferLoop {
  tl_state : State;
  tl_remaining : Decimal;
  tl_newSrcInv : list InventoryEntry
}.

(** One iteration of the loop of [handleTransfer] on [entry = srcInv[i]]. *)
Definition transferStep (destWallet commodity : string)
    (l : transferLoop) (entry : InventoryEntry) : transferLoop :=
  if Cmp (tl_remaining l) Zero <=? 0 then
    mkTransferLoop (tl_state l) (tl_remaining l) (tl_newSrcInv l ++ [entry])
  else if Cmp (entryAmount entry) Zero <=? 0 then l
  else
    let use := minDecimal (entryAmount entry) (tl_remaining l) in
    (* create a moved entry for dest preserving time and unit cost *)
    let moved := mkInventoryEntry (entryTime entry) use (UnitCost entry)
                                  (Mul (UnitCost entry) use) (SourceFiles entry) in
    let s := addInventory (tl_state l) destWallet commodity moved in
    (* decrease source entry *)
    let amount' := Sub (entryAmount entry) use in
    let entry' := mkInventoryEntry (entryTime entry) amount' (UnitCost entry)
                                   (Mul amount' (UnitCost entry)) (SourceFiles entry) in
    mkTransferLoop s
                   (Sub (tl_remaining l) use)
                   (if Cmp (entryAmount entry') NewFromFloat_1e_12 >? 0
                    then tl_newSrcInv l ++ [entry'] else tl_newSrcInv l).

(** Move FIFO inventory from the source wallet ([PairedComment]) to the
    destination wallet ([tx.Wallet]).

    When both are the same wallet, [srcInv] shares its backing array with
    the bucket that [addInventory] appends to and sorts in place, so what
    the loop reads next depends on the capacity of the slice and on the
    moves of the sort.  The embedding does not cover that case and
    answers [None]. *)
Definition handleTransfer (s : State) (tx : Tx) : option Ret :=
  let srcWallet := strings.TrimSpace (PairedComment tx) in
  let destWallet := Wallet tx in
  let commodity := Commodity tx in
  let amountToMove := Abs (Amount tx) in
  if IsZero amountToMove then Some (mkRet s [] None)
  else if decide (srcWallet = "") then
    Some (mkRet s (if Verbose s then [LogTransferMissingSource (ReferenceID tx)] else [])
                None)
  else if decide (srcWallet = destWallet) then None
  else
    let s := ensureInventoryBucket s srcWallet commodity in
    let s := ensureInventoryBucket s destWallet commodity in
    let srcInv := bucket (Inventories s) srcWallet commodity in
    let l := foldl (transferStep destWallet commodity)
                   (mkTransferLoop s amountToMove []) srcInv in
    let s := tl_state l in
    let remaining := tl_remaining l in
    let log := if Cmp remaining NewFromFloat_1e_9 >? 0
               then (if Verbose s
                     then [LogTransferWarning (Sub amountToMove remaining) amountToMove
                                              commodity srcWallet destWallet]
                     else [])
               else [] in
    Some (mkRet (withInventories s
                   (setBucket (Inventories s) srcWallet commodity (tl_newSrcInv l)))
                log None).

(** *** Processing pass *)

Definition normalizeType (t : string) : string :=
  strings.ToLower (strings.TrimSpace t).

Definition getHandlers : gmap string txHandlerFunc :=
  list_to_map [
    ("buy", handleBuy);
    ("sell", handleSell);
    ("income", handleIncome);
    ("reward", handleIncome);
    ("staking", handleIncome);
    ("deposit", handleIncome);
    ("convert", handleConvert);
    ("trade", handleConvert);
    ("transfer", handleTransfer) ].

(** The handler that [processTransactions] picks for [tx]: the one
    registered for the normalized type, else the fallback by heuristics.
    [None] stands for a nil function value. *)
Definition selectHandler (handlers : gmap string txHandlerFunc) (tx : Tx)
    : option txHandlerFunc :=
  match handlers !! normalizeType (Type_ tx) with
  | Some h => Some h
  | None =>
      let tt := strings.ToLower (Type_ tx) in
      if strings.Contains tt "sell" || (Cmp (Amount tx) Zero <? 0) then
        handlers !! "sell"
      else if strings.Contains tt "buy" || (Cmp (Amount tx) Zero >? 0) then
        handlers !! "buy"
      else if strings.Contains tt "reward" || strings.Contains tt "staking"
              || strings.Contains tt "deposit" || strings.Contains tt "income" then
        handlers !! "income"
      else if strings.Contains tt "convert" || strings.Contains tt "trade" then
        handlers !! "convert"
      else if strings.Contains tt "transfer" then
        handlers !! "transfer"
      else
        (* default: if positive amount -> buy, negative -> sell *)
        if Cmp (Amount tx) Zero >? 0 then handlers !! "buy" else handlers !! "sell"
  end.

(** Whether the verbose line of [tx] passes the wallet and commodity
    filters of the state. *)
Definition showTx (state : State) (tx : Tx) : bool :=
  let show := true in
  let show :=
    if (0 <? size (WalletFilter state))%nat
    then (if negb (default false (WalletFilter state !! Wallet tx)) then false else show)
    else show in
  let show :=
    if (0 <? size (CommodityFilter state))%nat
    then (if negb (default false
                     (CommodityFilter state
                        !! strings.ToLower (strings.TrimSpace (Commodity tx))))
          then false else show)
    else show in
  show.

(** The loop of [processTransactions]; [log] collects what has been
    logged so far.  A nil handler would panic when called: [selectHandler]
    never yields one (see [selectHandler_total]). *)
Fixpoint processLoop (handlers : gmap string txHandlerFunc) (state : State)
    (log : list LogEvent) (txs : list Tx) : option Ret :=
  match txs with
  | [] => Some (mkRet state log None)
  | tx :: txs' =>
      let log := if Verbose state
                 then (if showTx state tx then log ++ [LogProcessing tx] else log)
                 else log in
      h ← selectHandler handlers tx;
      r ← h state tx;
      match ret_err r with
      | Some e => Some (mkRet (ret_state r) (log ++ ret_log r) (Some e))
      | None => processLoop handlers (ret_state r) (log ++ ret_log r) txs'
      end
  end.

Definition processTransactions (state : State) (txs : list Tx) : option Ret :=
  processLoop getHandlers state [] txs.

End Handlers.

(** ** Kraken ledger rows: event groups *)

(** A row of the CSV file: lower-cased header name -> cell. *)
Abbreviation RawRecord := (gmap string string).

Definition nonEmptyAt (m : RawRecord) (k : string) : option string :=
  match m !! k with
  | Some v => if decide (strings.TrimSpace v = "") then None else Some v
  | None => None
  end.

Fixpoint firstNonEmpty (m : RawRecord) (keys : list string) : string :=
  match keys with
  | [] => ""
  | k :: keys' =>
      match nonEmptyAt m (strings.ToLower k) with
      | Some v => v
      | None =>
          (* also try raw key as-is *)
          match nonEmptyAt m k with
          | Some v => v
          | None => firstNonEmpty m keys'
          end
      end
  end.

Definition isFiat (asset : string) : bool :=
  let a := strings.ToLower (strings.TrimSpace asset) in
  if decide (a = "") then false
  else bool_decide (a ∈ ["eur"; "usd"; "gbp"; "chf"; "cad"; "aud"; "jpy"]).

(** The two tests that [parseCSVFile] makes on every row of a group. *)
Definition incomeLikeRow (rec : RawRecord) : bool :=
  let typ := strings.ToLower (firstNonEmpty rec ["type"; "tx_type"]) in
  strings.Contains typ "earn" || strings.Contains typ "reward"
  || strings.Contains typ "staking".

Definition allocationLikeRow (rec : RawRecord) : bool :=
  let sub := strings.ToLower (firstNonEmpty rec ["subtype"]) in
  strings.Contains sub "autoallocation" || strings.Contains sub "allocation".

(** The flags [(isIncomeGroup, isTransferGroup)] after the first loop over
    the group. *)
Definition groupFlags (group : list RawRecord) : bool * bool :=
  foldl (fun '(isIncomeGroup, isTransferGroup) rec =>
           (if incomeLikeRow rec then true else isIncomeGroup,
            if allocationLikeRow rec then true else isTransferGroup))
        (false, false) group.

(** The rows that the second loop collects in [cryptoRows]. *)
Definition cryptoRows (group : list RawRecord) : list RawRecord :=
  List.filter (fun rec => negb (isFiat (firstNonEmpty rec ["asset"; "pair"; "symbol"]))) group.

Inductive Kind := KindTrade | KindIncome | KindTransfer.

(** The branch that [parseCSVFile] takes for a group of the Kraken format:
    - [isTransferGroup && len(cryptoRows) > 0]: every transaction emitted
      has type "transfer", and the group is done ([continue]);
    - else [len(cryptoRows) > 0]: one transaction for a row, its type forced
      to "income" when [isIncomeGroup], left as the row has it otherwise;
    - else the group has fiat rows only and emits nothing. *)
Definition groupKind (group : list RawRecord) : option Kind :=
  let '(isIncomeGroup, isTransferGroup) := groupFlags group in
  let cryptoRows := cryptoRows group in
  if isTransferGroup && (0 <? length cryptoRows)%nat then Some KindTransfer
  else if (0 <? length cryptoRows)%nat then
    Some (if isIncomeGroup then KindIncome else KindTrade)
  else None.

(** The total cost that [parseKrakenRecord] stores in [Tx.Cost], from the
    parsed cells of the row. *)
Definition parseKrakenRecord_totalCost (typ : string) (amount fee cost pricePer : Decimal)
    : Decimal :=
  let totalCost := cost in
  let totalCost :=
    if IsZero totalCost && negb (IsZero pricePer) then Mul pricePer (Abs amount)
    else totalCost in
  (* add fee to cost for buys; for sells, fee reduces proceeds *)
  if bool_decide (typ = "buy") || bool_decide (typ = "deposit")
     || bool_decide (typ = "staking") || bool_decide (typ = "reward")
     || bool_decide (typ = "stakingreward")
  then Add totalCost fee
  else totalCost.

(** ** Vocabulary of the properties *)



(** Every bucket of the state is ordered oldest first. *)
Definition bucketsSorted (s : State) : Prop :=
  forall wallet commodity, Sorted notAfter (bucket (Inventories s) wallet commodity).


Definition lotsNonneg (s : State) : Prop :=
  forall wallet commodity e,
    e ∈ bucket (Inventories s) wallet commodity -> (0 <= entryAmount e)%Q.


(** The slices that a disposal of [remaining] draws from the lots [inv],
    read in the order of the list: for each lot,
    [use = min(lot.quantity, remaining)]. *)
Fixpoint fifoSlices (remaining : Decimal) (inv : list InventoryEntry)
    : list (InventoryEntry * Decimal) :=
  match inv with
  | [] => []
  | entry :: inv' =>
      if Cmp remaining Zero <=? 0 then []
      else if Cmp (entryAmount entry) Zero <=? 0 then fifoSlices remaining inv'
      else
        let use := minDecimal (entryAmount entry) remaining in
        (entry, use) :: fifoSlices (Sub remaining use) inv'
  end.

(** The lot that a sale, or a transfer, leaves of [entry] when [amount']
    of it remains. *)
Definition sellResidual (entry : InventoryEntry) (amount' : Decimal) : InventoryEntry :=
  mkInventoryEntry (entryTime entry) amount' (UnitCost entry)
                   (Mul (UnitCost entry) amount') (SourceFiles entry).


(** The lots that stay in the bucket after a disposal of [remaining]: a lot
    drawn from stays when more than 1e-12 of it is left, a lot of no
    quantity met on the way is dropped, and the lots after the point where
    nothing remains to be drawn are kept as they are. *)
Fixpoint fifoRest (residual : InventoryEntry -> Decimal -> InventoryEntry)
    (remaining : Decimal) (inv : list InventoryEntry) : list InventoryEntry :=
  match inv with
  | [] => []
  | entry :: inv' =>
      if Cmp remaining Zero <=? 0 then entry :: inv'
      else if Cmp (entryAmount entry) Zero <=? 0 then fifoRest residual remaining inv'
      else
        let use := minDecimal (entryAmount entry) remaining in
        let amount' := Sub (entryAmount entry) use in
        (if Cmp amount' NewFromFloat_1e_12 >? 0 then [residual entry amount'] else [])
        ++ fifoRest residual (Sub remaining use) inv'
  end.

(** What is left to draw after the slices. *)
Definition afterSlices (remaining : Decimal) (slices : list (InventoryEntry * Decimal))
    : Decimal :=
  foldl (fun r slice => Sub r slice.2) remaining slices.



(** The lot that a transfer adds to the destination for a slice. *)
Definition movedLot (slice : InventoryEntry * Decimal) : InventoryEntry :=
  mkInventoryEntry (entryTime slice.1) slice.2 (UnitCost slice.1)
                   (Mul (UnitCost slice.1) slice.2) (SourceFiles slice.1).

(** The state after a transfer has added the moved lots to the bucket of
    the destination, one [addInventory] for each slice. *)
Definition depositSlices `{sorter : SliceSort} (destWallet commodity : string)
    (s : State) (slices : list (InventoryEntry * Decimal)) : State :=
  foldl (fun s slice => addInventory s destWallet commodity (movedLot slice)) s slices.

(** Net proceeds of a sale of [amount]: the cost field, or price x amount
    when the cost field is zero, less the fee. *)
Definition netProceeds (tx : Tx) (amount : Decimal) : Decimal :=
  Sub (if IsZero (Cost tx)
       then (if negb (IsZero (PricePerUnit tx)) then Mul (PricePerUnit tx) amount else Cost tx)
       else Cost tx)
      (Fee tx).

(** Proceeds allocated to a slice, its cost basis and its gain. *)
Definition sliceProceeds (net amount use : Decimal) : Decimal := Div (Mul net use) amount.
Definition sliceBasis (entry : InventoryEntry) (use : Decimal) : Decimal :=
  Mul (UnitCost entry) use.
Definition sliceGain (net amount : Decimal) (slice : InventoryEntry * Decimal) : Decimal :=
  Sub (sliceProceeds net amount slice.2) (sliceBasis slice.1 slice.2).

(** [addLong] / [addShort] of the gain accumulator: add [gain] to the long
    or to the short bucket of year/wallet/commodity, creating it on first
    use. *)
Definition creditGain (year : Z) (wallet commodity : string) (long : bool) (gain : Decimal)
    (s : State) : State :=
  let '(s, slot) := getGainsSlot s year wallet commodity in
  storeGains s year wallet commodity
    (if long
     then mkGains (Short slot) (Add (Long slot) gain) (Income slot)
     else mkGains (Add (Short slot) gain) (Long slot) (Income slot)).

(** The accumulator after the slices of a sale have been credited, each to
    the long or to the short bucket of the year of the sale. *)
Definition creditSlices (tx : Tx) (wallet commodity : string) (net amount : Decimal)
    (s : State) (slices : list (InventoryEntry * Decimal)) : State :=
  foldl (fun s slice =>
           creditGain (time.Year (Time_ tx)) wallet commodity
             (isLongTerm (holdingDaysOf (Time_ tx) (entryTime slice.1)))
             (sliceGain net amount slice) s)
        s slices.


(** The bucket as a reader sees it: zero where nothing was recorded. *)
Definition gainsOrZero (ty : TaxYearsMap) (year : Z) (wallet commodity : string) : Gains :=
  default zeroGains (gainsAt ty year wallet commodity).

(** Two states hold the same data: they differ at most in [Verbose],
    [WalletFilter] and [CommodityFilter]. *)
Definition sameData (s1 s2 : State) : Prop :=
  Inventories s1 = Inventories s2 /\ TaxYears s1 = TaxYears s2.






(** The claim of the event grouper, as a test on a group: some row has an
    income-like marker in its type or in its subtype. *)
Definition hasIncomeMarker (group : list RawRecord) : bool :=
  existsb (fun rec =>
             let typ := strings.ToLower (firstNonEmpty rec ["type"; "tx_type"]) in
             let sub := strings.ToLower (firstNonEmpty rec ["subtype"]) in
             strings.Contains typ "earn" || strings.Contains typ "reward"
             || strings.Contains typ "staking" || strings.Contains sub "earn"
             || strings.Contains sub "reward" || strings.Contains sub "staking")
          group.

(** ** Sample data *)

Definition day (n : Z) : Time := mkTime (n * 24 * Hour) 0.

Definition tx (wallet typ commodity : string) (t : Time) (amount cost fee : Decimal) : Tx :=
  mkTx wallet t typ commodity "" amount cost Zero fee ∅ "ledger.csv" "" "".


(** The state that a processing pass over [txs] leaves, from a fresh state
    and with insertion sort for [sort.Slice]. *)
Definition stateAfterWith (verbose : bool) (txs : list Tx) : State :=
  match processTransactions (NewState verbose [] []) txs with
  | Some r => ret_state r
  | None => NewState verbose [] []
  end.

Definition stateAfter (txs : list Tx) : State := stateAfterWith false txs.


(** ** Vocabulary of the further properties *)










(** ** The parsing pass *)

(** The library functions that the parsing pass calls and that the embedding
    takes as they are: [decimal.NewFromString] ([None] for an error),
    [time.Parse] (layout, then value) and [filepath.Base]. *)
Class ParseLib := {
  NewFromString : string -> option Decimal;
  time_Parse : string -> string -> option Time;
  filepath_Base : string -> string
}.

(** [strings.ReplaceAll(s, ",", "")] *)
Fixpoint removeCommas (s : string) : string :=
  match s with
  | EmptyString => EmptyString
  | String c s' => if Ascii.eqb c "," then removeCommas s' else String c (removeCommas s')
  end.

(** The characters that the fallbacks of [parseDecimal] keep: digits, '.'
    and '-'. *)
Definition numericByte (c : ascii) : bool :=
  let n := nat_of_ascii c in
  ((48 <=? n) && (n <=? 57))%nat || Ascii.eqb c "." || Ascii.eqb c "-".

Fixpoint keepNumeric (s : string) : string :=
  match s with
  | EmptyString => EmptyString
  | String c s' => if numericByte c then String c (keepNumeric s') else keepNumeric s'
  end.

(** [strings.LastIndex(s, "+")], and [s[:idx]]. *)
Fixpoint lastIndexPlus (s : string) : Z :=
  match s with
  | EmptyString => -1
  | String c s' =>
      let i := lastIndexPlus s' in
      if 0 <=? i then i + 1 else if Ascii.eqb c "+" then 0 else -1
  end.

Definition prefixTo (s : string) (idx : Z) : string := String.substring 0 (Z.to_nat idx) s.

(** [time.Time{}]: January 1, year 1, 00:00:00 UTC. *)
Definition zeroTime : Time := mkTime (-62135596800000000000) 0.

Definition RFC3339 : string := "2006-01-02T15:04:05Z07:00".

Definition timeLayouts : list string :=
  [ RFC3339;
    "2006-01-02 15:04:05";
    "2006-01-02 15:04:05 MST";
    "2006-01-02";
    "1/2/2006 15:04";
    "1/2/2006 3:04PM";
    "2006-01-02T15:04:05" ].

Inductive ParseError :=
| ErrNoTime
| ErrUnableToParseTime (s : string).

(** One constructor for each [log.Printf] of the parsing pass. *)
Inductive ParseLog :=
| LogSkipKrakenRow (err : ParseError)
| LogSkipRow (err : ParseError)
| LogParsed (n : nat) (path format : string).

Section Parsing.

Context {lib : ParseLib}.

Definition parseDecimal (s : string) : Decimal :=
  let s := strings.TrimSpace (removeCommas s) in
  if decide (s = "") then Zero
  else
    (* try direct parse *)
    match NewFromString s with
    | Some d => d
    | None =>
        (* strip non-numeric (fallback); the error of the second parse is
           dropped, and the zero Decimal returned with it *)
        default Zero (NewFromString (keepNumeric s))
    end.

(** The first layout that parses [s], as the loop over [timeLayouts] finds
    it. *)
Fixpoint firstLayout (layouts : list string) (s : string) : option Time :=
  match layouts with
  | [] => None
  | l :: layouts' =>
      match time_Parse l s with
      | Some t => Some t
      | None => firstLayout layouts' s
      end
  end.

Definition parseTimeGuess (s : string) : Time + ParseError :=
  let s := strings.TrimSpace s in
  match firstLayout timeLayouts s with
  | Some t => inl t
  | None =>
      (* try trimming timezone part if endswith '+00:00' style *)
      let idx := lastIndexPlus s in
      match (if 0 <? idx then time_Parse RFC3339 (prefixTo s idx) else None) with
      | Some t => inl t
      | None => inr (ErrUnableToParseTime s)
      end
  end.

Definition lookupWallet (record : RawRecord) (defaults : list string) (srcFile : string)
    : string :=
  (* Prefer explicit wallet column; otherwise use default wallets or filename *)
  let w := firstNonEmpty record ["wallet"; "account"] in
  if decide (w ≠ "") then w
  else
    match defaults with
    | d :: _ => if decide (d ≠ "") then d else filepath_Base srcFile
    | [] => filepath_Base srcFile
    end.

Definition parseKrakenRecord (record : RawRecord) (srcFile : string)
    (defaultWallets : list string) : Tx + ParseError :=
  let timeStr := firstNonEmpty record ["time"; "date"; "datetime"] in
  if decide (timeStr = "") then inr ErrNoTime
  else
    match parseTimeGuess timeStr with
    | inr err => inr err
    | inl t =>
        let typ := strings.ToLower (firstNonEmpty record ["type"; "tx_type"]) in
        let asset := firstNonEmpty record ["asset"; "pair"; "symbol"] in
        let amount := parseDecimal (firstNonEmpty record ["vol"; "amount"; "qty"]) in
        let fee := parseDecimal (firstNonEmpty record ["fee"]) in
        let cost := parseDecimal (firstNonEmpty record ["cost"; "value"; "price"]) in
        let pricePer := parseDecimal (firstNonEmpty record ["price"]) in
        let totalCost := parseKrakenRecord_totalCost typ amount fee cost pricePer in
        let wallet := lookupWallet record defaultWallets srcFile in
        let pricePerUnit :=
          if negb (IsZero amount) then Div (Abs totalCost) (Abs amount) else Zero in
        inl (mkTx wallet t typ asset (firstNonEmpty record ["currency"; "pair"])
                  amount totalCost pricePerUnit fee record (filepath_Base srcFile)
                  (firstNonEmpty record ["txid"; "refid"; "orderno"]) "")
    end.

Definition parseGenericRecord (record : RawRecord) (srcFile : string)
    (defaultWallets : list string) : Tx + ParseError :=
  let timeStr := firstNonEmpty record ["time"; "date"; "datetime"] in
  if decide (timeStr = "") then inr ErrNoTime
  else
    match parseTimeGuess timeStr with
    | inr err => inr err
    | inl t =>
        let typ := strings.ToLower (firstNonEmpty record ["type"; "tx_type"; "category"]) in
        let asset := firstNonEmpty record ["asset"; "symbol"; "commodity"; "pair"] in
        let amount := parseDecimal (firstNonEmpty record ["amount"; "qty"; "vol"]) in
        let fee := parseDecimal (firstNonEmpty record ["fee"]) in
        let cost := parseDecimal (firstNonEmpty record ["cost"; "value"; "price"; "proceeds"]) in
        let totalCost := cost in
        let pricePer := parseDecimal (firstNonEmpty record ["price"]) in
        let totalCost :=
          if IsZero totalCost && negb (IsZero pricePer) then Mul pricePer (Abs amount)
          else totalCost in
        let totalCost :=
          if bool_decide (typ = "buy") || strings.Contains typ "buy"
          then Add totalCost fee else totalCost in
        let wallet := lookupWallet record defaultWallets srcFile in
        let pricePerUnit :=
          if negb (IsZero amount) then Div (Abs totalCost) (Abs amount) else Zero in
        inl (mkTx wallet t typ asset (firstNonEmpty record ["currency"])
                  amount totalCost pricePerUnit fee record (filepath_Base srcFile)
                  (firstNonEmpty record ["id"; "txid"; "refid"]) "")
    end.

(** *** One group of rows of the Kraken format *)

(** What the second loop over the group leaves in [fiatAsset], [totalFiat],
    [fiatFee], [cryptoTotalAbs] and [cryptoRows]. *)
Record groupTotals := mkGroupTotals {
  fiatAsset : string;
  totalFiat : Decimal;
  fiatFee : Decimal;
  cryptoTotalAbs : Decimal;
  gt_cryptoRows : list RawRecord
}.

Definition totalsStep (g : groupTotals) (rec : RawRecord) : groupTotals :=
  let asset := firstNonEmpty rec ["asset"; "pair"; "symbol"] in
  let amt := parseDecimal (firstNonEmpty rec ["vol"; "amount"; "qty"]) in
  if isFiat asset then
    mkGroupTotals asset (Add (totalFiat g) (Abs amt))
                  (Add (fiatFee g) (parseDecimal (firstNonEmpty rec ["fee"])))
                  (cryptoTotalAbs g) (gt_cryptoRows g)
  else
    mkGroupTotals (fiatAsset g) (totalFiat g) (fiatFee g)
                  (Add (cryptoTotalAbs g) (Abs amt)) (gt_cryptoRows g ++ [rec]).

Definition totalsOf (group : list RawRecord) : groupTotals :=
  foldl totalsStep (mkGroupTotals "" Zero Zero Zero []) group.

Record rowInfo := mkRowInfo { ri_rec : RawRecord; ri_amt : Decimal }.

(** [posMap] and [negMap]: the rows of positive quantity, and the others, by
    asset in lower case. *)
Definition splitStep (m : gmap string (list rowInfo) * gmap string (list rowInfo))
    (rec : RawRecord) : gmap string (list rowInfo) * gmap string (list rowInfo) :=
  let asset := strings.ToLower (firstNonEmpty rec ["asset"; "pair"; "symbol"]) in
  let amt := parseDecimal (firstNonEmpty rec ["vol"; "amount"; "qty"]) in
  let ri := mkRowInfo rec amt in
  if Cmp amt Zero >? 0
  then (<[asset := default [] (m.1 !! asset) ++ [ri]]> m.1, m.2)
  else (m.1, <[asset := default [] (m.2 !! asset) ++ [ri]]> m.2).

Definition posNegMaps (cryptoRows : list RawRecord)
    : gmap string (list rowInfo) * gmap string (list rowInfo) :=
  foldl splitStep (∅, ∅) cryptoRows.

(** The row that [matchedNeg] points to: the first negative row with the
    same absolute quantity, else the first negative row, else nil. *)
Definition matchNeg (negList : list rowInfo) (p : rowInfo) : option rowInfo :=
  match List.find (fun n => Cmp (Abs (ri_amt n)) (Abs (ri_amt p)) =? 0) negList with
  | Some n => Some n
  | None => head negList
  end.

Definition walletOf (rec : RawRecord) (defaultWallets : list string) (path : string)
    : string :=
  let w := firstNonEmpty rec ["wallet"; "account"] in
  if decide (w = "") then lookupWallet rec defaultWallets path else w.

(** The transfer that a positive row of a transfer group becomes. *)
Definition transferOf (path : string) (defaultWallets : list string)
    (negList : list rowInfo) (p : rowInfo) : Tx :=
  let matchedNeg := matchNeg negList p in
  let timeStr := firstNonEmpty (ri_rec p) ["time"; "date"; "datetime"] in
  let t := match parseTimeGuess timeStr with inl t => t | inr _ => zeroTime end in
  let destWallet := walletOf (ri_rec p) defaultWallets path in
  let ref := firstNonEmpty (ri_rec p) ["refid"; "txid"] in
  let srcWallet :=
    match matchedNeg with
    | Some n => walletOf (ri_rec n) defaultWallets path
    | None => ""
    end in
  mkTx destWallet t "transfer" (default "" (ri_rec p !! "asset"))
       (firstNonEmpty (ri_rec p) ["currency"; "pair"]) (Abs (ri_amt p))
       Zero Zero Zero (ri_rec p) (filepath_Base path) ref srcWallet.

(** What the row [rec] of a group that is not a transfer group adds to
    [txs] and to the log. *)
Definition rowTxs (path : string) (defaultWallets : list string) (verbose : bool)
    (isIncomeGroup : bool) (g : groupTotals) (rec : RawRecord) : list Tx * list ParseLog :=
  if isIncomeGroup
     && (Cmp (parseDecimal (firstNonEmpty rec ["vol"; "amount"; "qty"])) Zero <=? 0)
  then ([], []) (* skip the negative source line (avoid generating a sell) *)
  else
    match parseKrakenRecord rec path defaultWallets with
    | inr err => ([], if verbose then [LogSkipKrakenRow err] else [])
    | inl tx =>
        let tx :=
          if negb (bool_decide (fiatAsset g = "")) && negb (IsZero (cryptoTotalAbs g)) then
            (* allocate fiat cost and fee proportionally *)
            let amtAbs := Abs (Amount tx) in
            let proportion :=
              if negb (IsZero (cryptoTotalAbs g)) then Div amtAbs (cryptoTotalAbs g)
              else Zero in
            let cost := Mul (totalFiat g) proportion in
            mkTx (Wallet tx) (Time_ tx) (Type_ tx) (Commodity tx) (fiatAsset g)
                 (Amount tx) cost
                 (if negb (IsZero (Amount tx)) then Div (Abs cost) (Abs (Amount tx))
                  else PricePerUnit tx)
                 (Mul (fiatFee g) proportion) (Raw tx) (SourceFile tx)
                 (ReferenceID tx) (PairedComment tx)
          else tx in
        (* force income type for earn/reward groups *)
        let tx :=
          if isIncomeGroup
          then mkTx (Wallet tx) (Time_ tx) "income" (Commodity tx) (Currency tx)
                    (Amount tx) (Cost tx) (PricePerUnit tx) (Fee tx) (Raw tx)
                    (SourceFile tx) (ReferenceID tx) (PairedComment tx)
          else tx in
        ([tx], [])
    end.

(** The body of [for _, group := range groups].  [assets] is the order in
    which [range posMap] yields the assets of a transfer group: Go does not
    specify it. *)
Definition krakenGroupTxs (path : string) (defaultWallets : list string) (verbose : bool)
    (assets : list string) (group : list RawRecord) : list Tx * list ParseLog :=
  let '(isIncomeGroup, isTransferGroup) := groupFlags group in
  let g := totalsOf group in
  let cryptoRows := gt_cryptoRows g in
  if isTransferGroup && (0 <? length cryptoRows)%nat then
    let '(posMap, negMap) := posNegMaps cryptoRows in
    (flat_map (fun asset =>
                 let posList := default [] (posMap !! asset) in
                 let negList := default [] (negMap !! asset) in
                 map (transferOf path defaultWallets negList) posList)
              assets,
     [])
  else if (0 <? length cryptoRows)%nat then
    foldl (fun acc rec =>
             let '(txs, log) := rowTxs path defaultWallets verbose isIncomeGroup g rec in
             (acc.1 ++ txs, acc.2 ++ log))
          ([], []) cryptoRows
  else ([], []).

(** *** Rows of the generic format *)

Definition genericRowTxs (path : string) (defaultWallets : list string) (verbose : bool)
    (rec : RawRecord) : list Tx * list ParseLog :=
  let asset := firstNonEmpty rec ["asset"; "symbol"; "commodity"; "pair"] in
  if isFiat asset then ([], []) (* skip fiat rows *)
  else
    match parseGenericRecord rec path defaultWallets with
    | inl tx => ([tx], [])
    | inr err => ([], if verbose then [LogSkipRow err] else [])
    end.

Definition genericTxs (path : string) (defaultWallets : list string) (verbose : bool)
    (rows : list RawRecord) : list Tx * list ParseLog :=
  foldl (fun acc rec =>
           let '(txs, log) := genericRowTxs path defaultWallets verbose rec in
           (acc.1 ++ txs, acc.2 ++ log))
        ([], []) rows.

End Parsing.

(** [detectFormat]: Kraken when the header has txid, time and type. *)
Definition detectFormat (headerIdx : gmap string nat) : string :=
  match headerIdx !! "txid" with
  | Some _ =>
      match headerIdx !! "time" with
      | Some _ =>
          match headerIdx !! "type" with
          | Some _ => "kraken"
          | None => "generic"
          end
      | None => "generic"
      end
  | None => "generic"
  end.

(** ** Vocabulary of the properties of the parsing pass *)

Section ParsingVocabulary.

Context {lib : ParseLib}.

(** The asset and the quantity that [parseCSVFile] reads off a row of the
    Kraken format. *)
Definition rowAsset (rec : RawRecord) : string :=
  firstNonEmpty rec ["asset"; "pair"; "symbol"].

Definition rowAmount (rec : RawRecord) : Decimal :=
  parseDecimal (firstNonEmpty rec ["vol"; "amount"; "qty"]).

Definition rowFee (rec : RawRecord) : Decimal := parseDecimal (firstNonEmpty rec ["fee"]).

Definition positiveRow (rec : RawRecord) : bool := Cmp (rowAmount rec) Zero >? 0.

Definition fiatRows (group : list RawRecord) : list RawRecord :=
  List.filter (fun rec => isFiat (rowAsset rec)) group.

Definition sumAbsAmounts (rows : list RawRecord) : Q :=
  foldr (fun rec acc => (Qabs (rowAmount rec) + acc)%Q) 0%Q rows.

Definition sumFees (rows : list RawRecord) : Q :=
  foldr (fun rec acc => (rowFee rec + acc)%Q) 0%Q rows.

Definition sumCost (txs : list Tx) : Q := foldr (fun tx acc => (Cost tx + acc)%Q) 0%Q txs.

Definition sumFee (txs : list Tx) : Q := foldr (fun tx acc => (Fee tx + acc)%Q) 0%Q txs.

Definition rowInfoOf (rec : RawRecord) : rowInfo := mkRowInfo rec (rowAmount rec).

(** The row that gives a positive row [rec] of an allocation group its
    source wallet: among the rows of the same asset (compared in lower case)
    whose quantity is not positive, the first of the same absolute quantity,
    else the first. *)
Definition sourceRow (group : list RawRecord) (rec : RawRecord) : option RawRecord :=
  let negs :=
    List.filter (fun n => negb (positiveRow n)
                          && bool_decide (strings.ToLower (rowAsset n)
                                          = strings.ToLower (rowAsset rec)))
                (cryptoRows group) in
  match List.find (fun n => Cmp (Abs (rowAmount n)) (Abs (rowAmount rec)) =? 0) negs with
  | Some n => Some n
  | None => head negs
  end.

(** The transfer that stands for the positive row [rec] of an allocation
    group. *)
Definition allocationTransfer (path : string) (defaultWallets : list string)
    (group : list RawRecord) (rec : RawRecord) : Tx :=
  mkTx (lookupWallet rec defaultWallets path)
       (match parseTimeGuess (firstNonEmpty rec ["time"; "date"; "datetime"]) with
        | inl t => t
        | inr _ => zeroTime
        end)
       "transfer" (default "" (rec !! "asset")) (firstNonEmpty rec ["currency"; "pair"])
       (Abs (rowAmount rec)) Zero Zero Zero rec (filepath_Base path)
       (firstNonEmpty rec ["refid"; "txid"])
       (match sourceRow group rec with
        | Some n => lookupWallet n defaultWallets path
        | None => ""
        end).

(** The row has a time that [parseTimeGuess] reads. *)
Definition timeParses (rec : RawRecord) : Prop :=
  let timeStr := firstNonEmpty rec ["time"; "date"; "datetime"] in
  timeStr <> "" /\ exists t, parseTimeGuess timeStr = inl t.

End ParsingVocabulary.

(** ** Sample data of the parsing pass *)

(** The value of an integer numeral: on the numerals [-]d+ this is
    [decimal.NewFromString]; the samples use no others. *)
Fixpoint digitsValue (s : string) (acc : Z) : option Z :=
  match s with
  | EmptyString => Some acc
  | String c s' =>
      let n := nat_of_ascii c in
      if ((48 <=? n) && (n <=? 57))%nat then digitsValue s' (10 * acc + Z.of_nat (n - 48))
      else None
  end.

Definition sampleNewFromString (s : string) : option Decimal :=
  match s with
  | EmptyString => None
  | String c s' =>
      if Ascii.eqb c "-"
      then (if decide (s' = "") then None
            else (fun z => inject_Z (- z)) <$> digitsValue s' 0)
      else inject_Z <$> digitsValue s 0
  end.

(** [time.Parse] on the dates of the samples, which only the layout
    "2006-01-02" reads. *)
Definition sampleParse (layout value : string) : option Time :=
  if decide (layout = "2006-01-02") then
    if decide (value = "1970-01-02") then Some (day 1)
    else if decide (value = "1970-01-03") then Some (day 2)
    else None
  else None.

(** [filepath.Base] of a bare file name is the name. *)
Definition sampleLib : ParseLib := {|
  NewFromString := sampleNewFromString;
  time_Parse := sampleParse;
  filepath_Base := fun path => path
|}.

Definition sampleRow (typ subtype asset wallet amount fee : string) : RawRecord :=
  <["refid" := "R1"]> (<["time" := "1970-01-02"]> (<["type" := typ]>
    (<["subtype" := subtype]> (<["asset" := asset]> (<["wallet" := wallet]>
      (<["amount" := amount]> (<["fee" := fee]> ∅))))))).

(** ** Merging the files, the filters of main and the report *)

(** [a < b] on Go strings: the order of the bytes. *)
Fixpoint stringLess (a b : string) : bool :=
  match a, b with
  | _, EmptyString => false
  | EmptyString, String _ _ => true
  | String c a', String d b' =>
      let m := nat_of_ascii c in
      let n := nat_of_ascii d in
      if (m <? n)%nat then true
      else if (n <? m)%nat then false
      else stringLess a' b'
  end.

(** The [less] function that [mergeAndSortTxs] gives to [sort.Slice]. *)
Definition txLess (a b : Tx) : bool :=
  if time.Equal (Time_ a) (Time_ b) then
    (* stable tie-breaker by source file and reference id *)
    if decide (SourceFile a <> SourceFile b) then stringLess (SourceFile a) (SourceFile b)
    else stringLess (ReferenceID a) (ReferenceID b)
  else time.Before (Time_ a) (Time_ b).

(** [sort.Slice] on the merged transactions, with its contract: the result
    is a permutation in which no element is less than the one before. *)
Class TxSliceSort := sort_Slice_txs : list Tx -> list Tx.

Class TxSliceSortSpec (sorter : TxSliceSort) : Prop := {
  sort_Slice_txs_perm : forall l, sort_Slice_txs l ≡ₚ l;
  sort_Slice_txs_sorted : forall l, Sorted (fun a b => txLess b a = false) (sort_Slice_txs l)
}.

Fixpoint insertTx (x : Tx) (l : list Tx) : list Tx :=
  match l with
  | [] => [x]
  | y :: l' => if txLess x y then x :: y :: l' else y :: insertTx x l'
  end.

Definition insertionSortTxs (l : list Tx) : list Tx := foldr insertTx [] l.

#[export] Instance insertion_txsorter : TxSliceSort := insertionSortTxs.

Definition mergeAndSortTxs {txsorter : TxSliceSort} (all : list (list Tx)) : list Tx :=
  sort_Slice_txs (concat all).








(** [Decimal.StringFixed(2)], as the number that the string denotes: the
    value rounded to two places, half away from zero. *)
Definition StringFixed2 (d : Decimal) : Decimal :=
  (inject_Z (roundHalfAway (d * 100)) / 100)%Q.

Definition stringLe (a b : string) : Prop := stringLess b a = false.

#[export] Instance stringLe_dec a b : Decision (stringLe a b).
Proof. unfold stringLe. apply _. Defined.

(** [sort.Ints] and [sort.Strings] on the keys of a map, which are
    distinct: the result does not depend on the algorithm. *)
Definition sort_Ints (l : list Z) : list Z := merge_sort Z.le l.
Definition sort_Strings (l : list string) : list string := merge_sort stringLe l.

(** The sets [wset] and [cset] of [printSummary]. *)
Definition reportWalletSet (walletFilter : list string) : gmap string bool :=
  foldl (fun (wset : gmap string bool) w => <[w := true]> wset) ∅ walletFilter.

Definition reportCommoditySet (commodityFilter : list string) : gmap string bool :=
  foldl (fun (cset : gmap string bool) c =>
           let c := strings.ToLower (strings.TrimSpace c) in
           if decide (c = "") then cset else <[c := true]> cset)
        ∅ commodityFilter.

(** The amounts of a bucket as [printSummary] prints them. *)
Definition printedGains (g : Gains) : Gains :=
  mkGains (StringFixed2 (Short g)) (StringFixed2 (Long g)) (StringFixed2 (Income g)).

(** The loop of [printSummary] over the commodities of a wallet: the
    commodities that pass the filter, sorted, each with its amounts. *)
Definition summaryCommodities (cset : gmap string bool) (wm : gmap string Gains)
    : list (string * Gains) :=
  let commods :=
    sort_Strings
      (List.filter (fun c => if (0 <? size cset)%nat
                             then default false (cset !! strings.ToLower c)
                             else true)
                   (map_to_list wm).*1) in
  map (fun c => (c, printedGains (default (mkGains Zero Zero Zero) (wm !! c)))) commods.

(** The loop over the wallets of a year. *)
Definition summaryWallets (wset cset : gmap string bool)
    (ym : gmap string (gmap string Gains)) : list (string * list (string * Gains)) :=
  let wallets :=
    sort_Strings
      (List.filter (fun w => if (0 <? size wset)%nat then default false (wset !! w)
                             else true)
                   (map_to_list ym).*1) in
  map (fun w => (w, summaryCommodities cset (default ∅ (ym !! w)))) wallets.

(** The lines of [printSummary]: for a year its wallets, for a wallet its
    commodities, for a commodity the three amounts as they are printed. *)
Definition printSummary (state : State) (yearFilter : Z)
    (walletFilter commodityFilter : list string)
    : list (Z * list (string * list (string * Gains))) :=
  let wset := reportWalletSet walletFilter in
  let cset := reportCommoditySet commodityFilter in
  let years := sort_Ints (map_to_list (TaxYears state)).*1 in
  flat_map (fun y =>
              if negb (yearFilter =? 0) && negb (y =? yearFilter) then []
              else [(y, summaryWallets wset cset (default ∅ (TaxYears state !! y)))])
           years.

(** The lines of the report for the commodities, with year and wallet. *)
Definition reportLines (report : list (Z * list (string * list (string * Gains))))
    : list (Z * string * string * Gains) :=
  flat_map (fun yl => flat_map (fun wl => map (fun cl => (yl.1, wl.1, cl.1, cl.2)) wl.2) yl.2)
           report.

(** ** Vocabulary of the properties of the filters and of the report *)

(** The key under which a word of the commodity filter is kept, if any. *)
Definition commodityKey (c : string) : option string :=
  let c := strings.ToLower (strings.TrimSpace c) in
  if decide (c = "") then None else Some c.

(** What the three filters of the report let through. *)
Definition keepsYear (yearFilter y : Z) : bool := (yearFilter =? 0) || (y =? yearFilter).

Definition keepsWallet (walletFilter : list string) (w : string) : bool :=
  bool_decide (walletFilter = []) || bool_decide (w ∈ walletFilter).

Definition keepsCommodity (commodityFilter : list string) (c : string) : bool :=
  bool_decide (omap commodityKey commodityFilter = [])
  || bool_decide (strings.ToLower c ∈ omap commodityKey commodityFilter).

(** ** The rows of a file *)

(** [fmt.Sprintf("%d", idx)] for an index. *)
Fixpoint digitsOf (u : Decimal.uint) : string :=
  match u with
  | Decimal.Nil => ""
  | Decimal.D0 u => String "0" (digitsOf u)
  | Decimal.D1 u => String "1" (digitsOf u)
  | Decimal.D2 u => String "2" (digitsOf u)
  | Decimal.D3 u => String "3" (digitsOf u)
  | Decimal.D4 u => String "4" (digitsOf u)
  | Decimal.D5 u => String "5" (digitsOf u)
  | Decimal.D6 u => String "6" (digitsOf u)
  | Decimal.D7 u => String "7" (digitsOf u)
  | Decimal.D8 u => String "8" (digitsOf u)
  | Decimal.D9 u => String "9" (digitsOf u)
  end.

(** The key under which [parseCSVFile] groups the row [rec] of index [idx]:
    the reference id (refid or txid), or the index when there is none. *)
Definition groupKey (rec : RawRecord) (idx : nat) : string :=
  let key := firstNonEmpty rec ["refid"; "txid"] in
  if decide (key = "") then "ridx-" +:+ digitsOf (Nat.to_uint idx) else key.

Definition groupStep (acc : gmap string (list RawRecord) * nat) (rec : RawRecord)
    : gmap string (list RawRecord) * nat :=
  let key := groupKey rec acc.2 in
  (<[key := default [] (acc.1 !! key) ++ [rec]]> acc.1, S acc.2).

(** [groups], after the loop over the rows. *)
Definition groupRows (rows : list RawRecord) : gmap string (list RawRecord) :=
  (foldl groupStep (∅, 0%nat) rows).1.

Section ParsingFile.

Context {lib : ParseLib}.

(** The loop over the groups of a file of the Kraken format.  [groupOrder]
    is the order in which [range groups] yields the keys, and
    [assetOrder key] the order of [range posMap] in the group of [key]: Go
    specifies neither. *)
Definition krakenTxs (path : string) (defaultWallets : list string) (verbose : bool)
    (groupOrder : list string) (assetOrder : string -> list string)
    (rows : list RawRecord) : list Tx * list ParseLog :=
  let groups := groupRows rows in
  foldl (fun acc key =>
           let '(txs, log) :=
             krakenGroupTxs path defaultWallets verbose (assetOrder key)
                            (default [] (groups !! key)) in
           (acc.1 ++ txs, acc.2 ++ log))
        ([], []) groupOrder.

(** [parseCSVFile] from the rows on: the transactions and the log. *)
Definition parseRows (path : string) (defaultWallets : list string) (verbose : bool)
    (groupOrder : list string) (assetOrder : string -> list string)
    (format : string) (rows : list RawRecord) : list Tx * list ParseLog :=
  let out :=
    if decide (format = "kraken")
    then krakenTxs path defaultWallets verbose groupOrder assetOrder rows
    else genericTxs path defaultWallets verbose rows in
  (out.1, out.2 ++ if verbose then [LogParsed (length out.1) path format] else []).

End ParsingFile.

(** The rows of the generic format that are not fiat rows. *)
Definition genericCryptoRows (rows : list RawRecord) : list RawRecord :=
  List.filter (fun rec => negb (isFiat (firstNonEmpty rec ["asset"; "symbol"; "commodity";
                                                           "pair"]))) rows.

(** The rows with their indices, from [i] on. *)
Fixpoint indexFrom (i : nat) (rows : list RawRecord) : list (RawRecord * nat) :=
  match rows with
  | [] => []
  | rec :: rows' => (rec, i) :: indexFrom (S i) rows'
  end.

(** * Properties *)

(** ** Decimals *)

Lemma Cmp_le0 a b : (Cmp a b <=? 0) = true <-> (a <= b)%Q.
Proof.
  unfold Cmp. rewrite Qle_alt.
  destruct (a ?= b)%Q; simpl; split; intros H; try done.
Qed.

Lemma Cmp_le0_false a b : (Cmp a b <=? 0) = false <-> (b < a)%Q.
Proof.
  rewrite <- Bool.not_true_iff_false, Cmp_le0. split; [apply Qnot_le_lt | apply Qlt_not_le].
Qed.

Lemma Cmp_gt0 a b : (Cmp a b >? 0) = true <-> (b < a)%Q.
Proof.
  unfold Cmp. rewrite Qgt_alt.
  destruct (a ?= b)%Q; simpl; split; intros H; try done.
Qed.

Lemma Cmp_gt0_false a b : (Cmp a b >? 0) = false <-> (a <= b)%Q.
Proof.
  rewrite <- Bool.not_true_iff_false, Cmp_gt0. split; [apply Qnot_lt_le | apply Qle_not_lt].
Qed.

Lemma Cmp_lt0 a b : (Cmp a b <? 0) = true <-> (a < b)%Q.
Proof.
  unfold Cmp. rewrite Qlt_alt.
  destruct (a ?= b)%Q; simpl; split; intros H; try done.
Qed.

Lemma IsZero_true a : IsZero a = true <-> (a == 0)%Q.
Proof.
  unfold IsZero, Cmp, Zero. rewrite Qeq_alt.
  destruct (a ?= 0)%Q; simpl; split; intros H; try done.
Qed.

Lemma IsZero_false a : IsZero a = false <-> ~ (a == 0)%Q.
Proof. rewrite <- Bool.not_true_iff_false, IsZero_true. done. Qed.

Lemma IsZero_Abs a : IsZero (Abs a) = IsZero a.
Proof.
  apply Bool.eq_iff_eq_true. rewrite !IsZero_true. unfold Abs.
  split; intros H.
  - revert H. apply Qabs_case; intros; lra.
  - rewrite H. reflexivity.
Qed.

(** ** Buckets *)

Lemma bucket_setBucket_eq inv wallet commodity l :
  bucket (setBucket inv wallet commodity l) wallet commodity = l.
Proof.
  unfold bucket, setBucket. rewrite lookup_insert_eq. simpl.
  by rewrite lookup_insert_eq.
Qed.

Lemma bucket_setBucket_ne inv wallet commodity l wallet' commodity' :
  (wallet, commodity) ≠ (wallet', commodity') ->
  bucket (setBucket inv wallet commodity l) wallet' commodity' = bucket inv wallet' commodity'.
Proof.
  intros Hne. unfold bucket, setBucket.
  destruct (decide (wallet = wallet')) as [->|Hw].
  - rewrite lookup_insert_eq. simpl.
    rewrite lookup_insert_ne by congruence.
    destruct (inv !! wallet'); simpl; [done | by rewrite lookup_empty].
  - by rewrite lookup_insert_ne.
Qed.

Lemma bucket_ensureInventoryBucket s wallet commodity wallet' commodity' :
  bucket (Inventories (ensureInventoryBucket s wallet commodity)) wallet' commodity'
  = bucket (Inventories s) wallet' commodity'.
Proof.
  unfold ensureInventoryBucket. simpl.
  assert (Hfirst : bucket (match Inventories s !! wallet with
                           | Some _ => Inventories s
                           | None => <[wallet := ∅]> (Inventories s)
                           end) wallet' commodity'
                   = bucket (Inventories s) wallet' commodity').
  { destruct (Inventories s !! wallet) eqn:Hw; [done|].
    unfold bucket. destruct (decide (wallet = wallet')) as [->|Hne].
    - rewrite lookup_insert_eq, Hw. simpl. by rewrite lookup_empty.
    - by rewrite lookup_insert_ne. }
  set (inv1 := match Inventories s !! wallet with
               | Some _ => Inventories s
               | None => <[wallet := ∅]> (Inventories s)
               end) in *.
  destruct (inv1 !! wallet ≫= _) as [l|] eqn:Hc; [done|].
  destruct (decide ((wallet, commodity) = (wallet', commodity'))) as [Heq|Hne].
  - inversion Heq; subst wallet' commodity'.
    rewrite bucket_setBucket_eq. rewrite <- Hfirst. unfold bucket. by rewrite Hc.
  - by rewrite bucket_setBucket_ne.
Qed.

Lemma TaxYears_ensureInventoryBucket s wallet commodity :
  TaxYears (ensureInventoryBucket s wallet commodity) = TaxYears s.
Proof. done. Qed.

Lemma Verbose_ensureInventoryBucket s wallet commodity :
  Verbose (ensureInventoryBucket s wallet commodity) = Verbose s.
Proof. done. Qed.

Section AddInventory.

Context {sorter : SliceSort}.

Lemma bucket_addInventory_eq s wallet commodity entry :
  bucket (Inventories (addInventory s wallet commodity entry)) wallet commodity
  = sort_Slice (bucket (Inventories s) wallet commodity ++ [entry]).
Proof.
  unfold addInventory, withInventories. cbn [Inventories].
  rewrite bucket_setBucket_eq. by rewrite bucket_ensureInventoryBucket.
Qed.

Lemma bucket_addInventory_ne s wallet commodity entry wallet' commodity' :
  (wallet, commodity) ≠ (wallet', commodity') ->
  bucket (Inventories (addInventory s wallet commodity entry)) wallet' commodity'
  = bucket (Inventories s) wallet' commodity'.
Proof.
  intros Hne. unfold addInventory, withInventories. cbn [Inventories].
  rewrite bucket_setBucket_ne by done. by rewrite bucket_ensureInventoryBucket.
Qed.



End AddInventory.

(** ** Gains *)

Lemma Inventories_storeGains s year wallet commodity g :
  Inventories (storeGains s year wallet commodity g) = Inventories s.
Proof. done. Qed.

Lemma Inventories_getGainsSlot s year wallet commodity :
  Inventories (getGainsSlot s year wallet commodity).1 = Inventories s.
Proof. unfold getGainsSlot. by destruct (gainsAt _ _ _ _). Qed.

Lemma Verbose_getGainsSlot s year wallet commodity :
  Verbose (getGainsSlot s year wallet commodity).1 = Verbose s.
Proof. unfold getGainsSlot. by destruct (gainsAt _ _ _ _). Qed.

Lemma Inventories_creditGain year wallet commodity long gain s :
  Inventories (creditGain year wallet commodity long gain s) = Inventories s.
Proof.
  unfold creditGain.
  pose proof (Inventories_getGainsSlot s year wallet commodity) as H.
  destruct (getGainsSlot s year wallet commodity) as [s' slot]. done.
Qed.

Lemma Verbose_creditGain year wallet commodity long gain s :
  Verbose (creditGain year wallet commodity long gain s) = Verbose s.
Proof.
  unfold creditGain.
  pose proof (Verbose_getGainsSlot s year wallet commodity) as H.
  destruct (getGainsSlot s year wallet commodity) as [s' slot]. done.
Qed.

Lemma gainsAt_storeGains_eq s year wallet commodity g :
  gainsAt (TaxYears (storeGains s year wallet commodity g)) year wallet commodity = Some g.
Proof.
  unfold gainsAt, storeGains. simpl.
  rewrite lookup_insert_eq. simpl. rewrite lookup_insert_eq. simpl.
  by rewrite lookup_insert_eq.
Qed.

Lemma gainsOrZero_storeGains_ne s year wallet commodity g year' wallet' commodity' :
  (year, wallet, commodity) ≠ (year', wallet', commodity') ->
  gainsOrZero (TaxYears (storeGains s year wallet commodity g)) year' wallet' commodity'
  = gainsOrZero (TaxYears s) year' wallet' commodity'.
Proof.
  intros Hne. unfold gainsOrZero, gainsAt, storeGains. simpl.
  destruct (decide (year = year')) as [->|Hy]; [|by rewrite lookup_insert_ne].
  rewrite lookup_insert_eq. simpl.
  destruct (decide (wallet = wallet')) as [->|Hw].
  - rewrite lookup_insert_eq. simpl. rewrite lookup_insert_ne by congruence.
    destruct (TaxYears s !! year') as [ym|]; simpl; [|by rewrite lookup_empty].
    destruct (ym !! wallet'); simpl; [done | by rewrite lookup_empty].
  - rewrite lookup_insert_ne by done.
    destruct (TaxYears s !! year') as [ym|]; simpl; [done | by rewrite lookup_empty].
Qed.

Lemma gainsAt_ensured (ty : TaxYearsMap) year wallet year' wallet' commodity' :
  let ty1 := match ty !! year with
             | Some _ => ty
             | None => <[year := ∅]> ty
             end in
  let ym := default ∅ (ty1 !! year) in
  let ty2 := match ym !! wallet with
             | Some _ => ty1
             | None => <[year := <[wallet := ∅]> ym]> ty1
             end in
  gainsAt ty2 year' wallet' commodity' = gainsAt ty year' wallet' commodity'.
Proof.
  intros ty1 ym ty2.
  assert (H1 : gainsAt ty1 year' wallet' commodity' = gainsAt ty year' wallet' commodity').
  { subst ty1. destruct (ty !! year) eqn:Hy; [done|].
    unfold gainsAt. destruct (decide (year = year')) as [->|Hne].
    - rewrite lookup_insert_eq, Hy. simpl. by rewrite lookup_empty.
    - by rewrite lookup_insert_ne. }
  rewrite <- H1. subst ty2. destruct (ym !! wallet) eqn:Hw; [done|].
  unfold gainsAt. destruct (decide (year = year')) as [->|Hne].
  - rewrite lookup_insert_eq. simpl. fold ym.
    destruct (decide (wallet = wallet')) as [->|Hne'].
    + rewrite lookup_insert_eq. simpl. rewrite lookup_empty.
      subst ym. destruct (ty1 !! year') as [m|]; simpl in *.
      * by rewrite Hw.
      * done.
    + rewrite lookup_insert_ne by done.
      subst ym. destruct (ty1 !! year') as [m|]; simpl in *; [done|].
      by rewrite lookup_empty.
  - by rewrite lookup_insert_ne.
Qed.

Lemma getGainsSlot_cases s year wallet commodity :
  exists ty2,
    (forall year' wallet' commodity',
        gainsAt ty2 year' wallet' commodity' = gainsAt (TaxYears s) year' wallet' commodity')
    /\ getGainsSlot s year wallet commodity
       = match gainsAt ty2 year wallet commodity with
         | Some g => (withTaxYears s ty2, g)
         | None => (storeGains (withTaxYears s ty2) year wallet commodity zeroGains, zeroGains)
         end.
Proof.
  eexists. split; [|reflexivity].
  intros. apply gainsAt_ensured.
Qed.

Lemma gainsOrZero_getGainsSlot s year wallet commodity year' wallet' commodity' :
  gainsOrZero (TaxYears (getGainsSlot s year wallet commodity).1) year' wallet' commodity'
  = gainsOrZero (TaxYears s) year' wallet' commodity'.
Proof.
  destruct (getGainsSlot_cases s year wallet commodity) as (ty2 & Hens & ->).
  destruct (gainsAt ty2 year wallet commodity) as [g|] eqn:Hg.
  - cbn [fst TaxYears withTaxYears]. unfold gainsOrZero. by rewrite Hens.
  - cbn [fst].
    destruct (decide ((year, wallet, commodity) = (year', wallet', commodity'))) as [Heq|Hne].
    + inversion Heq; subst. unfold gainsOrZero at 1. rewrite gainsAt_storeGains_eq.
      unfold gainsOrZero. by rewrite <- Hens, Hg.
    + rewrite gainsOrZero_storeGains_ne by done.
      cbn [TaxYears withTaxYears]. unfold gainsOrZero. by rewrite Hens.
Qed.

Lemma getGainsSlot_slot s year wallet commodity :
  (getGainsSlot s year wallet commodity).2 = gainsOrZero (TaxYears s) year wallet commodity.
Proof.
  destruct (getGainsSlot_cases s year wallet commodity) as (ty2 & Hens & ->).
  destruct (gainsAt ty2 year wallet commodity) as [g|] eqn:Hg; cbn [snd];
    unfold gainsOrZero; by rewrite <- Hens, Hg.
Qed.

(** What a credit does to the accumulator, as a reader sees it. *)
Lemma gainsOrZero_creditGain_eq year wallet commodity long gain s :
  gainsOrZero (TaxYears (creditGain year wallet commodity long gain s)) year wallet commodity
  = let g := gainsOrZero (TaxYears s) year wallet commodity in
    if long then mkGains (Short g) (Add (Long g) gain) (Income g)
    else mkGains (Add (Short g) gain) (Long g) (Income g).
Proof.
  unfold creditGain.
  pose proof (getGainsSlot_slot s year wallet commodity) as Hslot.
  destruct (getGainsSlot s year wallet commodity) as [s' slot]. cbn [snd] in Hslot.
  unfold gainsOrZero at 1. rewrite gainsAt_storeGains_eq. simpl. by rewrite Hslot.
Qed.


(** ** Insertion sort meets the contract of sort.Slice *)

Lemma insertByTime_perm x l : insertByTime x l ≡ₚ x :: l.
Proof.
  induction l as [|y l IH]; simpl; [done|].
  destruct (lessByTime x y); [done|].
  rewrite IH. apply Permutation_swap.
Qed.

Lemma insertionSort_perm_acc l : forall acc,
  foldl (fun sorted x => insertByTime x sorted) acc l ≡ₚ acc ++ l.
Proof.
  induction l as [|x l IH]; intros acc; simpl.
  - by rewrite app_nil_r.
  - rewrite IH, insertByTime_perm. simpl. apply Permutation_middle.
Qed.

Lemma lessByTime_false x y : lessByTime x y = false -> notAfter y x.
Proof. unfold lessByTime, time.Before, notAfter. intros H. apply Z.ltb_ge in H. lia. Qed.

Lemma lessByTime_true x y : lessByTime x y = true -> notAfter x y.
Proof. unfold lessByTime, time.Before, notAfter. intros H. apply Z.ltb_lt in H. lia. Qed.

Lemma insertByTime_sorted x l : Sorted notAfter l -> Sorted notAfter (insertByTime x l).
Proof.
  induction 1 as [|y l Hs IH Hhd]; simpl.
  - repeat constructor.
  - destruct (lessByTime x y) eqn:Hxy.
    + constructor; [by constructor|]. constructor. by apply lessByTime_true.
    + constructor; [done|].
      destruct l as [|z l]; simpl in *.
      * constructor. by apply lessByTime_false.
      * destruct (lessByTime x z); constructor.
        -- by apply lessByTime_false.
        -- by inversion Hhd.
Qed.

Lemma insertionSort_sorted_acc l : forall acc,
  Sorted notAfter acc -> Sorted notAfter (foldl (fun sorted x => insertByTime x sorted) acc l).
Proof.
  induction l as [|x l IH]; intros acc Hacc; simpl; [done|].
  apply IH. by apply insertByTime_sorted.
Qed.

#[export] Instance insertion_sorter_spec : SliceSortSpec insertion_sorter.
Proof.
  split.
  - intros l. apply (insertionSort_perm_acc l []).
  - intros l. apply insertionSort_sorted_acc. constructor.
Qed.


(** ** The FIFO loop of handleSell *)

Section SellLoop.

Context {sorter : SliceSort}.

Lemma sellStep_credit tx wallet commodity amount net l entry :
  IsZero amount = false ->
  (Cmp (sl_remaining l) Zero <=? 0) = false ->
  (Cmp (entryAmount entry) Zero <=? 0) = false ->
  let use := minDecimal (entryAmount entry) (sl_remaining l) in
  let s' := creditGain (time.Year (Time_ tx)) wallet commodity
              (isLongTerm (holdingDaysOf (Time_ tx) (entryTime entry)))
              (sliceGain net amount (entry, use)) (sl_state l) in
  exists log,
    sellStep tx wallet commodity amount net l entry
    = mkSellLoop s' (Sub (sl_remaining l) use)
        (Sub (sl_proceedsRemaining l) (sliceProceeds net amount use))
        (sl_newInv l ++
           (if Cmp (Sub (entryAmount entry) use) NewFromFloat_1e_12 >? 0
            then [sellResidual entry (Sub (entryAmount entry) use)] else []))
        (sl_log l ++ log)
    /\ (Verbose s' = false -> log = []).
Proof.
  intros Hamt Hrem Hent use s'. subst s'.
  unfold sellStep, creditGain. rewrite Hrem, Hent, Hamt. cbn [negb].
  pose proof (Verbose_getGainsSlot (sl_state l) (time.Year (Time_ tx)) wallet commodity) as Hv.
  destruct (getGainsSlot (sl_state l) (time.Year (Time_ tx)) wallet commodity) as [s1 slot].
  cbn [fst] in Hv. fold use.
  eexists. split.
  - unfold sliceGain, sliceProceeds, sliceBasis, sellResidual. cbn [fst snd entryAmount].
    destruct (Cmp (Sub (entryAmount entry) use) NewFromFloat_1e_12 >? 0).
    + reflexivity.
    + by rewrite app_nil_r.
  - intros Hvf. unfold storeGains, withTaxYears in *. cbn [Verbose] in *. by rewrite Hvf.
Qed.

End SellLoop.

Section SellLoopRun.

Context {sorter : SliceSort}.

Lemma sellLoop_idle tx wallet commodity amount net inv : forall l,
  (Cmp (sl_remaining l) Zero <=? 0) = true ->
  foldl (sellStep tx wallet commodity amount net) l inv
  = mkSellLoop (sl_state l) (sl_remaining l) (sl_proceedsRemaining l)
               (sl_newInv l ++ inv) (sl_log l).
Proof.
  induction inv as [|entry inv IH]; intros l Hrem; simpl.
  - rewrite app_nil_r. by destruct l.
  - assert (Hstep : sellStep tx wallet commodity amount net l entry
                    = mkSellLoop (sl_state l) (sl_remaining l) (sl_proceedsRemaining l)
                                 (sl_newInv l ++ [entry]) (sl_log l)).
    { unfold sellStep. by rewrite Hrem. }
    rewrite Hstep, IH by done. simpl. by rewrite <- app_assoc.
Qed.

Lemma sellLoop_run tx wallet commodity amount net inv : forall l,
  IsZero amount = false ->
  let r := foldl (sellStep tx wallet commodity amount net) l inv in
  let slices := fifoSlices (sl_remaining l) inv in
  sl_state r = creditSlices tx wallet commodity net amount (sl_state l) slices
  /\ sl_remaining r = afterSlices (sl_remaining l) slices
  /\ sl_newInv r = sl_newInv l ++ fifoRest sellResidual (sl_remaining l) inv.
Proof.
  induction inv as [|entry inv IH]; intros l Hamt; simpl.
  - by rewrite app_nil_r.
  - destruct (Cmp (sl_remaining l) Zero <=? 0) eqn:Hrem.
    + pose proof (sellLoop_idle tx wallet commodity amount net (entry :: inv) l Hrem) as Hidle.
      simpl in Hidle. rewrite Hidle. done.
    + destruct (Cmp (entryAmount entry) Zero <=? 0) eqn:Hent.
      * assert (Hstep : sellStep tx wallet commodity amount net l entry = l).
        { unfold sellStep. by rewrite Hrem, Hent. }
        rewrite Hstep. by apply IH.
      * destruct (sellStep_credit tx wallet commodity amount net l entry Hamt Hrem Hent)
          as (log & -> & _).
        match goal with |- context [foldl _ ?l0 inv] => specialize (IH l0 Hamt) end.
        cbv zeta in IH. cbn [sl_state sl_remaining sl_newInv] in IH.
        destruct IH as (IH1 & IH2 & IH3).
        rewrite IH1, IH2, IH3. cbn [foldl creditSlices afterSlices snd fst].
        split; [done|]. split; [done|]. by rewrite <- app_assoc.
Qed.

End SellLoopRun.

(** ** Drawing from a list of lots, oldest first *)

Lemma minDecimal_cases a b :
  ((a <= b)%Q /\ minDecimal a b = a) \/ ((b < a)%Q /\ minDecimal a b = b).
Proof.
  unfold minDecimal. destruct (Cmp a b <=? 0) eqn:H.
  - left. by apply Cmp_le0 in H.
  - right. by apply Cmp_le0_false in H.
Qed.






Section Fifo.

Variable residual : InventoryEntry -> Decimal -> InventoryEntry.
Hypothesis residual_time : forall e a, entryTime (residual e a) = entryTime e.
Hypothesis residual_amount : forall e a, entryAmount (residual e a) = a.
Hypothesis residual_unitCost : forall e a, UnitCost (residual e a) = UnitCost e.






(** Every slice is drawn from a lot of the list, and takes of it a positive
    quantity, at most all. *)
Lemma fifoSlices_sound inv : forall q,
  Forall (fun slice => slice.1 ∈ inv
                       /\ (0 < slice.2)%Q /\ (slice.2 <= entryAmount slice.1)%Q)
         (fifoSlices q inv).
Proof.
  induction inv as [|e inv IH]; intros q; simpl; [done|].
  destruct (Cmp q Zero <=? 0) eqn:Hq; [done|].
  destruct (Cmp (entryAmount e) Zero <=? 0) eqn:He.
  - eapply Forall_impl; [apply IH|]. intros sl (? & ? & ?). split; [by right|done].
  - apply Cmp_le0_false in Hq, He. unfold Zero in Hq, He.
    constructor.
    + simpl. split; [by left|].
      destruct (minDecimal_cases (entryAmount e) q) as [[? ->]|[? ->]]; lra.
    + eapply Forall_impl; [apply IH|]. intros sl (? & ? & ?). split; [by right|done].
Qed.





End Fifo.

Section FifoPrefix.

Variable residual : InventoryEntry -> Decimal -> InventoryEntry.



End FifoPrefix.

(** ** The handlers, one by one *)

Lemma TaxYears_creditGain_congr year wallet commodity long gain s1 s2 :
  TaxYears s1 = TaxYears s2 ->
  TaxYears (creditGain year wallet commodity long gain s1)
  = TaxYears (creditGain year wallet commodity long gain s2).
Proof.
  intros H. unfold creditGain, getGainsSlot. rewrite H.
  destruct (gainsAt _ year wallet commodity); cbn [storeGains withTaxYears TaxYears]; done.
Qed.

Lemma creditSlices_cons tx wallet commodity net amount s slice slices :
  creditSlices tx wallet commodity net amount s (slice :: slices)
  = creditSlices tx wallet commodity net amount
      (creditGain (time.Year (Time_ tx)) wallet commodity
         (isLongTerm (holdingDaysOf (Time_ tx) (entryTime slice.1)))
         (sliceGain net amount slice) s)
      slices.
Proof. reflexivity. Qed.

Lemma TaxYears_creditSlices_congr tx wallet commodity net amount slices : forall s1 s2,
  TaxYears s1 = TaxYears s2 ->
  TaxYears (creditSlices tx wallet commodity net amount s1 slices)
  = TaxYears (creditSlices tx wallet commodity net amount s2 slices).
Proof.
  induction slices as [|sl slices IH]; intros s1 s2 H; [done|].
  rewrite !creditSlices_cons. apply IH. by apply TaxYears_creditGain_congr.
Qed.

Lemma Inventories_creditSlices tx wallet commodity net amount slices : forall s,
  Inventories (creditSlices tx wallet commodity net amount s slices) = Inventories s.
Proof.
  induction slices as [|sl slices IH]; intros s; [done|].
  rewrite creditSlices_cons, IH. apply Inventories_creditGain.
Qed.

Lemma Verbose_creditSlices tx wallet commodity net amount slices : forall s,
  Verbose (creditSlices tx wallet commodity net amount s slices) = Verbose s.
Proof.
  induction slices as [|sl slices IH]; intros s; [done|].
  rewrite creditSlices_cons, IH. apply Verbose_creditGain.
Qed.

Section HandlerRuns.

Context {sorter : SliceSort}.

Lemma sellLoop_log tx wallet commodity amount net inv : forall l,
  IsZero amount = false ->
  exists extra,
    sl_log (foldl (sellStep tx wallet commodity amount net) l inv) = sl_log l ++ extra
    /\ (Verbose (sl_state l) = false -> extra = []).
Proof.
  induction inv as [|entry inv IH]; intros l Hamt; simpl.
  - exists []. by rewrite app_nil_r.
  - destruct (Cmp (sl_remaining l) Zero <=? 0) eqn:Hrem.
    + pose proof (sellLoop_idle tx wallet commodity amount net (entry :: inv) l Hrem) as Hidle.
      simpl in Hidle. rewrite Hidle. exists []. by rewrite app_nil_r.
    + destruct (Cmp (entryAmount entry) Zero <=? 0) eqn:Hent.
      * assert (Hstep : sellStep tx wallet commodity amount net l entry = l).
        { unfold sellStep. by rewrite Hrem, Hent. }
        rewrite Hstep. by apply IH.
      * destruct (sellStep_credit tx wallet commodity amount net l entry Hamt Hrem Hent)
          as (log & -> & Hlog).
        match goal with |- context [foldl _ ?l0 inv] => destruct (IH l0 Hamt) as (extra & -> & Hextra) end.
        cbn [sl_log sl_state] in *. exists (log ++ extra).
        split; [by rewrite app_assoc|].
        rewrite Verbose_creditGain in Hlog, Hextra.
        intros Hv. by rewrite Hlog, Hextra.
Qed.

(** What a sale does: the bucket keeps what the FIFO draw leaves, the other
    buckets stay, and the slices are credited to the accumulator. *)
Lemma handleSell_run s tx :
  IsZero (Abs (Amount tx)) = false ->
  let wallet := Wallet tx in
  let commodity := Commodity tx in
  let amount := Abs (Amount tx) in
  let net := netProceeds tx amount in
  let inv := bucket (Inventories s) wallet commodity in
  let slices := fifoSlices amount inv in
  exists s' log,
    handleSell s tx = Some (mkRet s' log None)
    /\ bucket (Inventories s') wallet commodity = fifoRest sellResidual amount inv
    /\ (forall wallet' commodity',
          (wallet, commodity) ≠ (wallet', commodity') ->
          bucket (Inventories s') wallet' commodity' = bucket (Inventories s) wallet' commodity')
    /\ TaxYears s' = TaxYears (creditSlices tx wallet commodity net amount s slices)
    /\ Verbose s' = Verbose s
    /\ (Verbose s = false -> log = [])
    /\ (Verbose s = true -> (NewFromFloat_1e_9 < afterSlices amount slices)%Q ->
        exists pre, log = pre ++ [LogSellWarning amount wallet commodity
                                                 (afterSlices amount slices)]).
Proof.
  intros Hamt wallet commodity amount net inv slices.
  unfold handleSell. rewrite Hamt. fold wallet commodity amount.
  fold (netProceeds tx amount). fold net.
  rewrite bucket_ensureInventoryBucket. fold inv.
  set (s0 := ensureInventoryBucket s wallet commodity).
  set (log0 := if Verbose s0 then _ else _).
  set (l0 := mkSellLoop s0 amount net [] log0).
  destruct (sellLoop_run tx wallet commodity amount net inv l0 Hamt) as (Hst & Hrem & Hinv).
  destruct (sellLoop_log tx wallet commodity amount net inv l0 Hamt) as (extra & Hlog & Hextra).
  cbn [sl_state sl_remaining sl_newInv sl_log l0] in *. fold slices in Hst, Hrem.
  set (r := foldl _ l0 inv) in *.
  eexists _, _. split; [reflexivity|].
  cbn [Inventories withInventories TaxYears Verbose].
  split; [by rewrite bucket_setBucket_eq, Hinv|].
  split.
  { intros w' c' Hne. rewrite bucket_setBucket_ne by done.
    rewrite Hst, Inventories_creditSlices. apply bucket_ensureInventoryBucket. }
  split; [rewrite Hst; by apply TaxYears_creditSlices_congr|].
  assert (Hv : Verbose (sl_state r) = Verbose s) by (by rewrite Hst, Verbose_creditSlices).
  split; [by rewrite Hv|].
  split.
  - intros Hvf. rewrite Hv, Hvf, Hlog. subst log0. cbn [Verbose s0 ensureInventoryBucket withInventories].
    rewrite Hvf in *. rewrite Hextra by done. by destruct (Cmp _ _ >? 0).
  - intros Hvt Hgt. rewrite Hv, Hvt, Hrem.
    apply Cmp_gt0 in Hgt. rewrite Hgt. eexists. reflexivity.
Qed.

End HandlerRuns.

Section TransferRuns.

Context {sorter : SliceSort}.

Lemma depositSlices_cons destWallet commodity s slice slices :
  depositSlices destWallet commodity s (slice :: slices)
  = depositSlices destWallet commodity
      (addInventory s destWallet commodity (movedLot slice)) slices.
Proof. reflexivity. Qed.









End TransferRuns.

(** ** Invariants of the buckets *)

Section Invariants.

Context {sorter : SliceSort} {sorter_spec : SliceSortSpec sorter}.


Lemma bucket_depositSlices_sorted destWallet commodity slices : forall s,
  Sorted notAfter (bucket (Inventories s) destWallet commodity) ->
  Sorted notAfter
    (bucket (Inventories (depositSlices destWallet commodity s slices)) destWallet commodity).
Proof.
  induction slices as [|sl slices IH]; intros s Hs; [done|].
  rewrite depositSlices_cons. apply IH. rewrite bucket_addInventory_eq.
  apply sort_Slice_sorted.
Qed.

Variable P : Q -> Prop.
Hypothesis P_positive : forall a, (0 < a)%Q -> P a.
















End Invariants.

Section Reachable.

Context {sorter : SliceSort} {sorter_spec : SliceSortSpec sorter}.


End Reachable.

(** ** Rounding of Div *)

Lemma roundHalfAway_spec x :
  2 * Z.abs (roundHalfAway x * Z.pos (Qden x) - Qnum x) <= Z.pos (Qden x).
Proof.
  destruct x as [n d]. unfold roundHalfAway. cbn [Qnum Qden].
  set (m := Z.abs n).
  assert (Hm : 0 <= m) by (subst m; lia).
  pose proof (Z.div_mod (2 * m + Z.pos d) (2 * Z.pos d) ltac:(lia)) as Hdm.
  pose proof (Z.mod_pos_bound (2 * m + Z.pos d) (2 * Z.pos d) ltac:(lia)) as Hbound.
  set (k := (2 * m + Z.pos d) / (2 * Z.pos d)) in *.
  set (rem := (2 * m + Z.pos d) mod (2 * Z.pos d)) in *.
  destruct (Z.sgn_spec n) as [[Hn ->]|[[Hn ->]|[Hn ->]]]; subst m; nia.
Qed.

Lemma roundHalfAway_close x : (Qabs (inject_Z (roundHalfAway x) - x) <= 1 # 2)%Q.
Proof.
  pose proof (roundHalfAway_spec x) as H. set (r := roundHalfAway x) in *.
  apply Qabs_Qle_condition. destruct x as [n d]. cbn [Qnum Qden] in H.
  unfold Qle, Qminus, Qplus, Qopp, inject_Z. cbn [Qnum Qden]. split; nia.
Qed.

(** [Div] is within half a unit of the 16th decimal place of the
    quotient. *)
Lemma Div_close a b :
  ~ (b == 0)%Q -> (Qabs (Div a b - a / b) <= 1 # 20000000000000000)%Q.
Proof.
  intros Hb. unfold Div, DivRound, DivisionPrecision.
  set (scale := inject_Z (10 ^ 16)).
  pose proof (roundHalfAway_close (a / b * scale)) as H.
  set (r := inject_Z (roundHalfAway (a / b * scale))) in *.
  assert (Hs : (scale == 10000000000000000)%Q) by (subst scale; vm_compute; reflexivity).
  apply Qabs_Qle_condition in H as [H1 H2]. apply Qabs_Qle_condition.
  assert (Heq : (r / scale - a / b == (r - a / b * scale) / scale)%Q).
  { rewrite Hs. field. done. }
  rewrite Heq, Hs. split.
  - apply Qle_shift_div_l; [done|]. rewrite Hs in H1. lra.
  - apply Qle_shift_div_r; [done|]. rewrite Hs in H2. lra.
Qed.

(** [Div] is the quotient when the quotient has at most 16 decimals. *)
Lemma Div_exact a b z :
  ~ (b == 0)%Q ->
  (a / b * inject_Z (10 ^ 16) == inject_Z z)%Q -> (Div a b == a / b)%Q.
Proof.
  intros Hb Hz. unfold Div, DivRound, DivisionPrecision.
  pose proof (roundHalfAway_close (a / b * inject_Z (10 ^ 16))) as H.
  rewrite Hz in H at 2.
  assert (Hr : roundHalfAway (a / b * inject_Z (10 ^ 16)) = z).
  { set (r := roundHalfAway _) in *. apply Qabs_Qle_condition in H as [H1 H2].
    unfold Qle, Qminus, Qplus, Qopp, inject_Z in H1, H2. cbn [Qnum Qden] in H1, H2. lia. }
  rewrite Hr, <- Hz. field. split; [done|]. intros H0. vm_compute in H0. discriminate.
Qed.

(** ** The flags of the state only reach the log *)

Lemma sameData_refl s : sameData s s.
Proof. by split. Qed.




Section SameData.

Context {sorter : SliceSort}.













End SameData.

(** ** The pass returns *)

Section Totality.

Context {sorter : SliceSort}.






End Totality.

(** * The claims *)








(** Selling 5 out of lots of 2 and 3 for 500 allocates 200 and 300. *)
Lemma proportional_allocation_example e1 e2 :
  entryAmount e1 = 2%Q -> entryAmount e2 = 3%Q ->
  exists p1 p2,
    map (fun slice => (slice.1, slice.2, sliceProceeds 500 5 slice.2))
        (fifoSlices 5 [e1; e2])
    = [(e1, 2%Q, p1); (e2, 3%Q, p2)]
    /\ (p1 == 200)%Q /\ (p2 == 300)%Q.
Proof.
  intros H1 H2. eexists _, _. split.
  - simpl. rewrite H1, H2. vm_compute. reflexivity.
  - split; vm_compute; reflexivity.
Qed.

(** C3 (sell arithmetic), as the code has it.  A sale of quantity Q > 0
    returns without error and works with the net proceeds, cost less fee
    (the cost being price x Q when the cost field is zero and a price is
    given).  Every slice, of size [use] with 0 < use <= the quantity of its
    lot, has cost basis u x use and is allocated [Div (net x use) Q]: the
    quotient net x use / Q rounded to 16 decimal places, hence within
    0.5e-16 of net x (use / Q).  The gain of the slice, allocated proceeds
    less cost basis, is added to the long or to the short bucket of (year of
    the sale, wallet, commodity).  Selling 5 out of lots of 2 and 3 for 500
    allocates 200 and 300, whatever the unit costs. *)
Theorem sell_arithmetic {sorter : SliceSort} {sorter_spec : SliceSortSpec sorter} s tx :
  let wallet := Wallet tx in
  let commodity := Commodity tx in
  let amount := Abs (Amount tx) in
  let net := netProceeds tx amount in
  let slices := fifoSlices amount (bucket (Inventories s) wallet commodity) in
  let year := time.Year (Time_ tx) in
  IsZero amount = false ->
  (exists r, handleSell s tx = Some r /\ ret_err r = None
             /\ TaxYears (ret_state r)
                = TaxYears (creditSlices tx wallet commodity net amount s slices))
  /\ (IsZero (Cost tx) = false \/ IsZero (PricePerUnit tx) = true ->
      net = Sub (Cost tx) (Fee tx))
  /\ Forall (fun slice =>
               slice.1 ∈ bucket (Inventories s) wallet commodity
               /\ (0 < slice.2)%Q /\ (slice.2 <= entryAmount slice.1)%Q
               /\ (sliceBasis slice.1 slice.2 == UnitCost slice.1 * slice.2)%Q
               /\ (Qabs (sliceProceeds net amount slice.2 - net * (slice.2 / amount))
                   <= 1 # 20000000000000000)%Q
               /\ (sliceGain net amount slice
                   == sliceProceeds net amount slice.2 - UnitCost slice.1 * slice.2)%Q)
            slices
  /\ (forall s0 long gain,
        let g := gainsOrZero (TaxYears s0) year wallet commodity in
        gainsOrZero (TaxYears (creditGain year wallet commodity long gain s0))
                    year wallet commodity
        = if long then mkGains (Short g) (Add (Long g) gain) (Income g)
          else mkGains (Add (Short g) gain) (Long g) (Income g))
  /\ (forall e1 e2, entryAmount e1 = 2%Q -> entryAmount e2 = 3%Q ->
        exists p1 p2,
          map (fun slice => (slice.1, slice.2, sliceProceeds 500 5 slice.2))
              (fifoSlices 5 [e1; e2])
          = [(e1, 2%Q, p1); (e2, 3%Q, p2)]
          /\ (p1 == 200)%Q /\ (p2 == 300)%Q).
Proof.
  intros wallet commodity amount net slices year Hamt.
  split; [|split; [|split; [|split]]].
  - destruct (handleSell_run s tx Hamt) as (s' & log & Hrun & _ & _ & Hty & _).
    exists (mkRet s' log None). by repeat split.
  - unfold net, netProceeds. intros [Hc|Hp].
    + by rewrite Hc.
    + rewrite Hp. simpl. by destruct (IsZero (Cost tx)).
  - eapply Forall_impl; [apply fifoSlices_sound|].
    intros [e use] (Hin & Hpos & Hle). cbn [fst snd] in *.
    split; [done|]. split; [done|]. split; [done|].
    unfold sliceGain, sliceProceeds, sliceBasis, Sub, Mul. cbn [fst snd].
    split; [reflexivity|]. split; [|reflexivity].
    assert (Hne : ~ (amount == 0)%Q) by (by apply IsZero_false).
    assert (Heq : (net * (use / amount) == net * use / amount)%Q) by (field; done).
    rewrite Heq. by apply Div_close.
  - intros s0 long gain. apply gainsOrZero_creditGain_eq.
  - apply proportional_allocation_example.
Qed.

(** The claim's own example: lots of 2 and 3, bought for 100 and 600, and a
    sale of 5 for 500. *)
Lemma sell_arithmetic_witness :
  let s := stateAfter [tx "w" "buy" "ETH" (day 0) 2 100 0; tx "w" "buy" "ETH" (day 1) 3 600 0] in
  let sale := tx "w" "sell" "ETH" (day 2) (-5) 500 0 in
  (exists r, handleSell s sale = Some r /\ ret_err r = None
             /\ TaxYears (ret_state r)
                = TaxYears (creditSlices sale "w" "ETH" (netProceeds sale 5) 5 s
                              (fifoSlices 5 (bucket (Inventories s) "w" "ETH"))))
  /\ (Short (gainsOrZero
               (TaxYears (creditSlices sale "w" "ETH" (netProceeds sale 5) 5 s
                            (fifoSlices 5 (bucket (Inventories s) "w" "ETH"))))
               1970 "w" "ETH")
      == (200 - 100) + (300 - 600))%Q.
Proof.
  intros s sale. split.
  - apply (sell_arithmetic s sale). vm_compute. reflexivity.
  - vm_compute. reflexivity.
Defined.

(** C3 as stated fails where the quotient does not end within 16 decimals:
    lots of 1 and 2, acquired for nothing more than a year and one day
    before a sale of 3 for 100.  The long-term bucket receives the gain of
    the first slice, 33.3333333333333333, which is neither
    100 x (1 / 3) - 0 x 1 nor that expression in decimal arithmetic. *)
Lemma sell_arithmetic_counterexample :
  let s := stateAfter [tx "w" "buy" "ETH" (day 0) 1 0 0; tx "w" "buy" "ETH" (day 400) 2 0 0;
                       tx "w" "sell" "ETH" (day 401) 3 100 0] in
  let long := Long (gainsOrZero (TaxYears s) 1971 "w" "ETH") in
  (long == 33.3333333333333333)%Q
  /\ ~ (long == (100 - 0) * (1 / 3) - 0 * 1)%Q
  /\ ~ (long == Sub (Mul (Sub 100 0) (Div 1 3)) (Mul 0 1))%Q.
Proof.
  intros s long. split; [vm_compute; reflexivity|].
  split; intros H; vm_compute in H; discriminate.
Qed.

(** C4 (holding-period boundary), on the code.  A lot sold exactly 365 days
    after its acquisition is long-term and one sold after exactly 364 days
    is short-term, whatever the instant of acquisition and the time zones.
    But the holding period is computed in binary64: a lot sold 365 days less
    one nanosecond after its acquisition has [holdingDays] equal to 365.0,
    and its gain goes to the long-term bucket. *)
Theorem holding_period_boundary :
  (forall t0 zone zone',
      isLongTerm (holdingDaysOf (mkTime (t0 + 365 * 24 * Hour) zone) (mkTime t0 zone')) = true)
  /\ (forall t0 zone zone',
        isLongTerm (holdingDaysOf (mkTime (t0 + 364 * 24 * Hour) zone) (mkTime t0 zone'))
        = false)
  /\ (let acquired := mkTime 1 0 in
      let sold := day 365 in
      let s := stateAfter [tx "w" "buy" "ETH" acquired 1 100 0; tx "w" "sell" "ETH" sold 1 150 0] in
      unixNano sold - unixNano acquired < 365 * 24 * Hour
      /\ holdingDaysOf sold acquired = float64_of_Z 365
      /\ (Long (gainsOrZero (TaxYears s) 1971 "w" "ETH") == 50)%Q
      /\ (Short (gainsOrZero (TaxYears s) 1971 "w" "ETH") == 0)%Q).
Proof.
  split; [|split].
  - intros t0 zone zone'. unfold holdingDaysOf, time.Sub. cbn [unixNano].
    replace (t0 + 365 * 24 * Hour - t0) with (365 * 24 * Hour) by lia.
    vm_compute. reflexivity.
  - intros t0 zone zone'. unfold holdingDaysOf, time.Sub. cbn [unixNano].
    replace (t0 + 364 * 24 * Hour - t0) with (364 * 24 * Hour) by lia.
    vm_compute. reflexivity.
  - vm_compute. repeat split; reflexivity.
Qed.

Lemma groupFlags_acc group : forall income transfer,
  foldl (fun '(isIncomeGroup, isTransferGroup) rec =>
           (if incomeLikeRow rec then true else isIncomeGroup,
            if allocationLikeRow rec then true else isTransferGroup))
        (income, transfer) group
  = (income || existsb incomeLikeRow group, transfer || existsb allocationLikeRow group).
Proof.
  induction group as [|rec group IH]; intros income transfer; simpl.
  - by rewrite !orb_false_r.
  - rewrite IH. destruct (incomeLikeRow rec), (allocationLikeRow rec), income, transfer; done.
Qed.

(** C5 (classification precedence), as the code has it.  A group with no
    non-fiat row yields nothing.  Otherwise the group is a Transfer as soon
    as the subtype of some row contains an allocation-like marker, whether
    or not an income-like marker is present; it is Income when no subtype
    has an allocation-like marker and the type field of some row contains
    earn, reward or staking (the subtype is not searched for these); it is a
    Trade in the remaining case. *)
Theorem classification_precedence group :
  groupKind group
  = if (0 <? length (cryptoRows group))%nat
    then (if existsb allocationLikeRow group then Some KindTransfer
          else if existsb incomeLikeRow group then Some KindIncome
               else Some KindTrade)
    else None.
Proof.
  unfold groupKind, groupFlags. rewrite groupFlags_acc. simpl.
  destruct (existsb allocationLikeRow group), (0 <? length (cryptoRows group))%nat,
    (existsb incomeLikeRow group); done.
Qed.

(** C5 as stated fails on an allocation into an earn wallet: the two rows of
    the group have type "earn", an income-like marker, and subtype
    "allocation"; the group is a Transfer, not Income. *)
Lemma classification_precedence_counterexample :
  let row (wallet amount : string) : RawRecord :=
    <["refid" := "R1"]> (<["type" := "earn"]> (<["subtype" := "allocation"]>
      (<["asset" := "ETH"]> (<["wallet" := wallet]> (<["amount" := amount]> ∅))))) in
  let group := [row "spot / main" "-1"; row "earn / flexible" "1"] in
  hasIncomeMarker group = true
  /\ groupKind group = Some KindTransfer
  /\ groupKind group ≠ Some KindIncome.
Proof. intros row group. split; [|split]; vm_compute; done. Qed.













(** * Further properties of the ledger *)

(** ** Income *)


(** X1 (income).  An income transaction of non-zero quantity returns
    without error and inserts one lot: the timestamp of the transaction, the
    absolute quantity, and as total cost the cost field (the fair value); the
    unit cost is the value over the quantity rounded to 16 decimal places,
    and zero when the value is zero.  The bucket stays in ascending order of
    timestamp and the other buckets stay.  The value is added to the income
    of (year of the transaction, wallet, commodity); the short and long side
    of that bucket and every other gains bucket stay as they are. *)
Theorem income_inserts_lot_and_records_value {sorter : SliceSort}
    {sorter_spec : SliceSortSpec sorter} s tx :
  let wallet := Wallet tx in
  let commodity := Commodity tx in
  let amount := Abs (Amount tx) in
  let value := if IsZero (Cost tx) then Zero else Cost tx in
  let unitCost := if IsZero (Cost tx) then Zero else Div (Cost tx) amount in
  let entry := mkInventoryEntry (Time_ tx) amount unitCost value [SourceFile tx] in
  let year := time.Year (Time_ tx) in
  IsZero (Amount tx) = false ->
  exists r,
    handleIncome s tx = Some r
    /\ ret_err r = None
    /\ bucket (Inventories (ret_state r)) wallet commodity
       ≡ₚ bucket (Inventories s) wallet commodity ++ [entry]
    /\ Sorted notAfter (bucket (Inventories (ret_state r)) wallet commodity)
    /\ (forall wallet' commodity',
          (wallet, commodity) ≠ (wallet', commodity') ->
          bucket (Inventories (ret_state r)) wallet' commodity'
          = bucket (Inventories s) wallet' commodity')
    /\ (let g := gainsOrZero (TaxYears s) year wallet commodity in
        gainsOrZero (TaxYears (ret_state r)) year wallet commodity
        = mkGains (Short g) (Long g) (Add (Income g) value))
    /\ (forall year' wallet' commodity',
          (year, wallet, commodity) ≠ (year', wallet', commodity') ->
          gainsOrZero (TaxYears (ret_state r)) year' wallet' commodity'
          = gainsOrZero (TaxYears s) year' wallet' commodity').
Proof.
  intros wallet commodity amount value unitCost entry year Hamt.
  assert (Hentry : mkInventoryEntry (Time_ tx) (Abs (Amount tx))
                     (if negb (IsZero (Cost tx))
                      then (if negb (IsZero (Abs (Amount tx)))
                            then Div (if negb (IsZero (Cost tx)) then Cost tx else Zero)
                                     (Abs (Amount tx))
                            else Zero)
                      else Zero)
                     (if negb (IsZero (Cost tx)) then Cost tx else Zero) [SourceFile tx]
                   = entry).
  { subst entry unitCost value amount. rewrite IsZero_Abs, Hamt.
    by destruct (IsZero (Cost tx)). }
  unfold handleIncome. rewrite Hamt. rewrite Hentry.
  fold wallet commodity year.
  set (s1 := addInventory s wallet commodity entry).
  pose proof (getGainsSlot_slot s1 year wallet commodity) as Hslot.
  pose proof (Inventories_getGainsSlot s1 year wallet commodity) as Hinv.
  pose proof (gainsOrZero_getGainsSlot s1 year wallet commodity) as Hty.
  destruct (getGainsSlot s1 year wallet commodity) as [s2 slot]. cbn [fst snd] in *.
  eexists. split; [reflexivity|]. cbn [ret_state ret_err].
  rewrite Inventories_storeGains, Hinv.
  split; [done|]. subst s1. rewrite bucket_addInventory_eq.
  split; [apply sort_Slice_perm|]. split; [apply sort_Slice_sorted|].
  split; [intros w' c' Hne; by apply bucket_addInventory_ne|].
  split.
  - cbv zeta. unfold gainsOrZero at 1. rewrite gainsAt_storeGains_eq. cbn [default].
    rewrite Hslot. subst value. by destruct (IsZero (Cost tx)).
  - intros y' w' c' Hne. rewrite gainsOrZero_storeGains_ne by done. by rewrite Hty.
Qed.

(** Staking income of 10 XYZ without a value, in a fresh state. *)
Lemma income_inserts_lot_and_records_value_witness :
  let income := tx "earn" "income" "XYZ" (day 0) 10 0 0 in
  exists r,
    handleIncome (NewState false [] []) income = Some r
    /\ bucket (Inventories (ret_state r)) "earn" "XYZ"
       ≡ₚ [mkInventoryEntry (day 0) 10 0 0 ["ledger.csv"]]
    /\ gainsOrZero (TaxYears (ret_state r)) 1970 "earn" "XYZ" = mkGains 0 0 (0 + 0).
Proof.
  intros income.
  destruct (income_inserts_lot_and_records_value (NewState false [] []) income)
    as (r & Hrun & _ & Hperm & _ & _ & Hg & _).
  - vm_compute. reflexivity.
  - exists r. split; [exact Hrun|]. split; [exact Hperm|exact Hg].
Defined.

(** ** What a pass logs, and what it leaves of the flags *)

Section Quiet.

Context {sorter : SliceSort}.

Lemma flags_ensureInventoryBucket s wallet commodity :
  WalletFilter (ensureInventoryBucket s wallet commodity) = WalletFilter s
  /\ CommodityFilter (ensureInventoryBucket s wallet commodity) = CommodityFilter s.
Proof. done. Qed.













End Quiet.


(** ** The gain accumulator only grows *)







Section Buckets.

Context {sorter : SliceSort}.











End Buckets.



(** ** Quantities and totals of a sale *)










(** ** Transfers that move what there is *)




(** ** No negative lot, and every bucket in order *)



(** ** Which handler a transaction gets *)

Section Dispatch.

Context {sorter : SliceSort}.

Lemma getHandlers_table k h :
  (k, h) ∈ [("buy", handleBuy); ("sell", handleSell); ("income", handleIncome);
            ("reward", handleIncome); ("staking", handleIncome);
            ("deposit", handleIncome); ("convert", handleConvert);
            ("trade", handleConvert); ("transfer", handleTransfer)] ->
  (getHandlers !! k : option txHandlerFunc) = Some h.
Proof.
  intros Hin. unfold getHandlers. apply elem_of_list_to_map_1; [|done].
  cbn [fmap list_fmap fst]. apply (bool_decide_unpack _). vm_compute. reflexivity.
Qed.

Lemma Cmp_gt0_lt a b : (Cmp a b <? 0) = true -> (Cmp a b >? 0) = false.
Proof. unfold Cmp. by destruct (a ?= b)%Q. Qed.

(** X8 (dispatch).  A transaction whose type, trimmed and in lower case, is
    one of buy, sell, income, reward, staking, deposit, convert, trade and
    transfer gets the handler of that word, whatever its quantity: a deposit
    is handled as income, a trade as a conversion.  For any other type the
    sign of the quantity decides: a negative quantity is sold, and a
    positive quantity is bought unless the type contains "sell"; so a type
    such as "staking reward" with a positive quantity is a buy, and the
    words reward, staking, deposit, income, convert, trade and transfer are
    looked for in the type only when the quantity is zero. *)
Theorem dispatch_by_type_then_by_sign tx :
  let tt := strings.ToLower (Type_ tx) in
  (forall h,
      (normalizeType (Type_ tx), h)
      ∈ [("buy", handleBuy); ("sell", handleSell); ("income", handleIncome);
         ("reward", handleIncome); ("staking", handleIncome);
         ("deposit", handleIncome); ("convert", handleConvert);
         ("trade", handleConvert); ("transfer", handleTransfer)] ->
      selectHandler getHandlers tx = Some h)
  /\ ((getHandlers !! normalizeType (Type_ tx) : option txHandlerFunc) = None ->
      ((Amount tx < 0)%Q -> selectHandler getHandlers tx = Some handleSell)
      /\ ((0 < Amount tx)%Q ->
          selectHandler getHandlers tx
          = Some (if strings.Contains tt "sell" then handleSell else handleBuy))
      /\ ((Amount tx == 0)%Q ->
          strings.Contains tt "sell" = false -> strings.Contains tt "buy" = false ->
          selectHandler getHandlers tx
          = Some (if strings.Contains tt "reward" || strings.Contains tt "staking"
                     || strings.Contains tt "deposit" || strings.Contains tt "income"
                  then handleIncome
                  else if strings.Contains tt "convert" || strings.Contains tt "trade"
                       then handleConvert
                       else if strings.Contains tt "transfer" then handleTransfer
                            else handleSell))).
Proof.
  intros tt. split.
  - intros h Hin. unfold selectHandler. by rewrite (getHandlers_table _ _ Hin).
  - intros Hnone. unfold selectHandler. rewrite Hnone. fold tt.
    assert (Hsell : (getHandlers !! "sell" : option txHandlerFunc) = Some handleSell)
      by (apply getHandlers_table; set_solver).
    assert (Hbuy : (getHandlers !! "buy" : option txHandlerFunc) = Some handleBuy)
      by (apply getHandlers_table; set_solver).
    assert (Hincome : (getHandlers !! "income" : option txHandlerFunc) = Some handleIncome)
      by (apply getHandlers_table; set_solver).
    assert (Hconvert : (getHandlers !! "convert" : option txHandlerFunc) = Some handleConvert)
      by (apply getHandlers_table; set_solver).
    assert (Htransfer : (getHandlers !! "transfer" : option txHandlerFunc)
                        = Some handleTransfer)
      by (apply getHandlers_table; set_solver).
    rewrite Hsell, Hbuy, Hincome, Hconvert, Htransfer.
    split; [|split].
    + intros Hneg. apply Cmp_lt0 in Hneg. unfold Zero. unfold Zero in Hneg.
      rewrite Hneg. by rewrite orb_true_r.
    + intros Hpos.
      assert (Hlt : (Cmp (Amount tx) Zero <? 0) = false).
      { apply Bool.not_true_iff_false. rewrite Cmp_lt0. unfold Zero. lra. }
      assert (Hgt : (Cmp (Amount tx) Zero >? 0) = true) by (by apply Cmp_gt0).
      rewrite Hlt, Hgt, orb_false_r, orb_true_r. by destruct (strings.Contains tt "sell").
    + intros Hzero Hs Hb.
      assert (Hlt : (Cmp (Amount tx) Zero <? 0) = false).
      { apply Bool.not_true_iff_false. rewrite Cmp_lt0. unfold Zero. lra. }
      assert (Hgt : (Cmp (Amount tx) Zero >? 0) = false).
      { apply Cmp_gt0_false. unfold Zero. lra. }
      rewrite Hlt, Hgt, Hs, Hb. cbn [orb].
      repeat match goal with |- context [if ?b then _ else _] => destruct b end; done.
Qed.

End Dispatch.

(** A staking reward of 1 ETH, typed "staking reward", is handled as a buy:
    no income is recorded for it. *)
Lemma dispatch_by_type_then_by_sign_witness :
  let reward := tx "w" "staking reward" "ETH" (day 0) 1 100 0 in
  selectHandler getHandlers reward = Some handleBuy
  /\ TaxYears (stateAfter [reward]) = ∅.
Proof.
  intros reward. split.
  - destruct (dispatch_by_type_then_by_sign reward) as [_ H].
    destruct H as (_ & Hpos & _); [vm_compute; reflexivity|].
    rewrite Hpos; [|vm_compute; reflexivity]. reflexivity.
  - vm_compute. reflexivity.
Defined.

(** * Properties of the parsing pass *)

Lemma foldl_pairs {A B C} (f : A -> list B * list C) (l : list A) (acc : list B * list C) :
  foldl (fun acc x => let '(t, g) := f x in (acc.1 ++ t, acc.2 ++ g)) acc l
  = (acc.1 ++ flat_map (fun x => (f x).1) l, acc.2 ++ flat_map (fun x => (f x).2) l).
Proof.
  revert acc. induction l as [|x l IH]; intros [a b]; cbn [foldl flat_map fst snd].
  - by rewrite !app_nil_r.
  - rewrite IH. destruct (f x) as [t g]. cbn [fst snd]. by rewrite !app_assoc.
Qed.

Lemma find_map {A B} (f : B -> bool) (g : A -> B) (l : list A) :
  List.find f (map g l) = g <$> List.find (fun x => f (g x)) l.
Proof. induction l as [|x l IH]; [done|]. cbn. by destruct (f (g x)). Qed.

Lemma head_map {A B} (g : A -> B) (l : list A) : head (map g l) = g <$> head l.
Proof. by destruct l. Qed.

Lemma filter_filter_and {A} (f g : A -> bool) (l : list A) :
  List.filter f (List.filter g l) = List.filter (fun x => g x && f x) l.
Proof.
  induction l as [|x l IH]; [done|]. cbn. destruct (g x); cbn; [|done].
  destruct (f x); by rewrite IH.
Qed.

Lemma filter_split_perm {A} (f : A -> bool) (l : list A) :
  l ≡ₚ List.filter f l ++ List.filter (fun x => negb (f x)) l.
Proof.
  induction l as [|x l IH]; [done|]. cbn. destruct (f x); cbn.
  - by constructor.
  - rewrite <- Permutation_middle. by constructor.
Qed.

Lemma filter_ext_in {A} (f g : A -> bool) (l : list A) :
  (forall x, x ∈ l -> f x = g x) -> List.filter f l = List.filter g l.
Proof.
  induction l as [|x l IH]; intros H; [done|]. cbn.
  rewrite (H x) by left. rewrite IH; [done|]. intros y Hy. apply H. by right.
Qed.

Lemma filter_none {A} (f : A -> bool) (l : list A) :
  (forall x, x ∈ l -> f x = false) -> List.filter f l = [].
Proof.
  induction l as [|x l IH]; intros H; [done|]. cbn.
  rewrite (H x) by left. apply IH. intros y Hy. apply H. by right.
Qed.

Lemma elem_of_filter_bool {A} (f : A -> bool) (l : list A) x :
  x ∈ List.filter f l <-> x ∈ l /\ f x = true.
Proof. rewrite !list_elem_of_In. apply filter_In. Qed.

Lemma flat_map_ext_elem {A B} (f g : A -> list B) (l : list A) :
  (forall x, x ∈ l -> f x = g x) -> flat_map f l = flat_map g l.
Proof.
  induction l as [|x l IH]; intros H; [done|]. cbn.
  rewrite (H x) by left. rewrite IH; [done|]. intros y Hy. apply H. by right.
Qed.

(** Rows grouped by key and taken key by key are the rows, in another
    order. *)
Lemma group_by_key_perm {A} (key : A -> string) (keys : list string) (l : list A) :
  NoDup keys ->
  (forall x, x ∈ l -> key x ∈ keys) ->
  flat_map (fun k => List.filter (fun x => bool_decide (key x = k)) l) keys ≡ₚ l.
Proof.
  revert l. induction keys as [|k keys IH]; intros l Hnd Hall.
  - destruct l as [|x l]; [done|]. specialize (Hall x ltac:(left)). by apply elem_of_nil in Hall.
  - apply NoDup_cons in Hnd as [Hk Hnd]. cbn [flat_map].
    etrans; [|symmetry; apply (filter_split_perm (fun x => bool_decide (key x = k)) l)].
    apply Permutation_app; [done|].
    rewrite <- (IH (List.filter (fun x => negb (bool_decide (key x = k))) l) Hnd).
    + apply Permutation_refl'. apply flat_map_ext_elem. intros k' Hk'.
      rewrite filter_filter_and. apply filter_ext_in. intros x _.
      destruct (bool_decide_reflect (key x = k')) as [->|]; [|by rewrite andb_false_r].
      rewrite andb_true_r.
      rewrite bool_decide_eq_false_2; [done|]. by intros ->.
    + intros x Hx. apply elem_of_filter_bool in Hx as [Hx Hne].
      apply negb_true_iff, bool_decide_eq_false in Hne.
      specialize (Hall x Hx). apply elem_of_cons in Hall as [?|?]; done.
Qed.

Lemma isFiat_nonempty a : isFiat a = true -> a <> "".
Proof. intros H ->. vm_compute in H. discriminate. Qed.

Lemma isFiat_blank a : strings.TrimSpace a = "" -> isFiat a = false.
Proof. intros H. unfold isFiat. rewrite H. reflexivity. Qed.

Section ParsingFacts.

Context {lib : ParseLib}.

Lemma totalsStep_fold group g0 :
  let g := foldl totalsStep g0 group in
  gt_cryptoRows g = gt_cryptoRows g0 ++ cryptoRows group
  /\ (totalFiat g == totalFiat g0 + sumAbsAmounts (fiatRows group))%Q
  /\ (fiatFee g == fiatFee g0 + sumFees (fiatRows group))%Q
  /\ (cryptoTotalAbs g == cryptoTotalAbs g0 + sumAbsAmounts (cryptoRows group))%Q
  /\ (fiatAsset g = "" <-> fiatAsset g0 = "" /\ fiatRows group = []).
Proof.
  revert g0. induction group as [|rec group IH]; intros g0; cbn zeta.
  - cbn. rewrite app_nil_r. repeat split; try lra; tauto.
  - cbn [foldl]. destruct (IH (totalsStep g0 rec)) as (H1 & H2 & H3 & H4 & H5).
    rewrite H1, H2, H3, H4, H5. clear IH H1 H2 H3 H4 H5.
    unfold totalsStep, cryptoRows, fiatRows. cbn [List.filter].
    fold (rowAsset rec) (rowAmount rec) (rowFee rec).
    destruct (isFiat (rowAsset rec)) eqn:Hf; cbn [negb gt_cryptoRows totalFiat fiatFee
      cryptoTotalAbs fiatAsset sumAbsAmounts sumFees foldr]; unfold Add, Abs.
    + pose proof (isFiat_nonempty _ Hf) as Hne. unfold sumAbsAmounts, sumFees.
      split; [done|]. split; [lra|]. split; [lra|]. split; [lra|].
      split; [intros [? _]; done | intros [_ ?]; done].
    + rewrite <- app_assoc. unfold sumAbsAmounts, sumFees.
      split; [done|]. split; [lra|]. split; [lra|]. split; [lra|]. tauto.
Qed.

Lemma totalsOf_spec group :
  let g := totalsOf group in
  gt_cryptoRows g = cryptoRows group
  /\ (totalFiat g == sumAbsAmounts (fiatRows group))%Q
  /\ (fiatFee g == sumFees (fiatRows group))%Q
  /\ (cryptoTotalAbs g == sumAbsAmounts (cryptoRows group))%Q
  /\ (fiatAsset g = "" <-> fiatRows group = []).
Proof.
  destruct (totalsStep_fold group (mkGroupTotals "" Zero Zero Zero [])) as (H1 & H2 & H3 & H4 & H5).
  cbn zeta. unfold totalsOf. rewrite H1, H2, H3, H4, H5. cbn. unfold Zero.
  repeat split; try lra; tauto.
Qed.

Lemma posNegMaps_snoc rows rec :
  posNegMaps (rows ++ [rec]) = splitStep (posNegMaps rows) rec.
Proof. unfold posNegMaps. by rewrite foldl_app. Qed.

(** [posMap] and [negMap] hold, for an asset, its rows in the order of the
    file. *)
Lemma posNegMaps_spec rows a :
  default [] ((posNegMaps rows).1 !! a)
  = map rowInfoOf
        (List.filter (fun rec => positiveRow rec
                                 && bool_decide (strings.ToLower (rowAsset rec) = a)) rows)
  /\ default [] ((posNegMaps rows).2 !! a)
     = map rowInfoOf
           (List.filter (fun rec => negb (positiveRow rec)
                                    && bool_decide (strings.ToLower (rowAsset rec) = a)) rows).
Proof.
  induction rows as [|rec rows IH] using rev_ind.
  - cbn. by rewrite lookup_empty.
  - rewrite posNegMaps_snoc, !List.filter_app, !map_app. destruct IH as [IH1 IH2].
    unfold splitStep. fold (rowAsset rec) (rowAmount rec) (positiveRow rec).
    cbn [List.filter]. destruct (positiveRow rec) eqn:Hp; cbn [fst snd negb andb].
    + rewrite app_nil_r. split; [|done].
      destruct (decide (strings.ToLower (rowAsset rec) = a)) as [<-|Hne].
      * rewrite lookup_insert_eq, bool_decide_eq_true_2 by done. cbn [default map].
        by rewrite IH1.
      * rewrite lookup_insert_ne, bool_decide_eq_false_2 by done. cbn [map].
        by rewrite app_nil_r.
    + rewrite app_nil_r. split; [done|].
      destruct (decide (strings.ToLower (rowAsset rec) = a)) as [<-|Hne].
      * rewrite lookup_insert_eq, bool_decide_eq_true_2 by done. cbn [default map].
        by rewrite IH2.
      * rewrite lookup_insert_ne, bool_decide_eq_false_2 by done. cbn [map].
        by rewrite app_nil_r.
Qed.

(** The test for an empty wallet column before [lookupWallet] changes
    nothing: [lookupWallet] starts with the same columns. *)
Lemma walletOf_lookupWallet rec defaultWallets path :
  walletOf rec defaultWallets path = lookupWallet rec defaultWallets path.
Proof.
  unfold walletOf, lookupWallet.
  destruct (decide (firstNonEmpty rec ["wallet"; "account"] = "")) as [He|Hne].
  - done.
  - by rewrite decide_True.
Qed.

Lemma matchNeg_rowInfoOf negs rec :
  matchNeg (map rowInfoOf negs) (rowInfoOf rec)
  = rowInfoOf <$> (match List.find (fun n => Cmp (Abs (rowAmount n)) (Abs (rowAmount rec)) =? 0)
                                   negs with
                   | Some n => Some n
                   | None => head negs
                   end).
Proof.
  unfold matchNeg. rewrite find_map, head_map. cbn [ri_amt rowInfoOf].
  by destruct (List.find _ negs).
Qed.

Lemma transferOf_allocationTransfer path defaultWallets group rec :
  transferOf path defaultWallets
    (map rowInfoOf
         (List.filter (fun n => negb (positiveRow n)
                                && bool_decide (strings.ToLower (rowAsset n)
                                                = strings.ToLower (rowAsset rec)))
                      (cryptoRows group)))
    (rowInfoOf rec)
  = allocationTransfer path defaultWallets group rec.
Proof.
  unfold transferOf, allocationTransfer, sourceRow. rewrite matchNeg_rowInfoOf.
  cbn [ri_rec ri_amt rowInfoOf]. rewrite walletOf_lookupWallet. f_equal.
  destruct (List.find _ _) as [n|]; cbn [fmap option_fmap option_map ri_rec rowInfoOf].
  - apply walletOf_lookupWallet.
  - destruct (head _) as [n|]; cbn [fmap option_fmap option_map ri_rec rowInfoOf]; [|done].
    apply walletOf_lookupWallet.
Qed.

End ParsingFacts.

Lemma map_flat_map_list {A B C} (f : B -> C) (g : A -> list B) (l : list A) :
  map f (flat_map g l) = flat_map (fun x => map f (g x)) l.
Proof. induction l as [|x l IH]; [done|]. cbn. by rewrite map_app, IH. Qed.

Lemma map_ext_elem {A B} (f g : A -> B) (l : list A) :
  (forall x, x ∈ l -> f x = g x) -> map f l = map g l.
Proof.
  induction l as [|x l IH]; intros H; [done|]. cbn.
  rewrite (H x) by left. rewrite IH; [done|]. intros y Hy. apply H. by right.
Qed.

Section ParsingBranches.

Context {lib : ParseLib}.

(** The three branches of the body of the loop over the groups. *)
Lemma krakenGroupTxs_cases path defaultWallets verbose assets group :
  krakenGroupTxs path defaultWallets verbose assets group
  = match groupKind group with
    | Some KindTransfer =>
        (flat_map (fun asset =>
                     map (transferOf path defaultWallets
                            (default [] ((posNegMaps (cryptoRows group)).2 !! asset)))
                         (default [] ((posNegMaps (cryptoRows group)).1 !! asset)))
                  assets, [])
    | Some k =>
        let isIncomeGroup := match k with KindIncome => true | _ => false end in
        (flat_map (fun rec => (rowTxs path defaultWallets verbose isIncomeGroup
                                      (totalsOf group) rec).1) (cryptoRows group),
         flat_map (fun rec => (rowTxs path defaultWallets verbose isIncomeGroup
                                      (totalsOf group) rec).2) (cryptoRows group))
    | None => ([], [])
    end.
Proof.
  unfold krakenGroupTxs, groupKind. destruct (groupFlags group) as [inc tr].
  rewrite (proj1 (totalsOf_spec group)).
  destruct tr, (0 <? length (cryptoRows group))%nat; cbn [andb]; try done.
  all: try (by destruct (posNegMaps (cryptoRows group))).
  all: rewrite (foldl_pairs (rowTxs path defaultWallets verbose inc (totalsOf group)));
    by destruct inc.
Qed.

Lemma genericTxs_flat path defaultWallets verbose rows :
  genericTxs path defaultWallets verbose rows
  = (flat_map (fun rec => (genericRowTxs path defaultWallets verbose rec).1) rows,
     flat_map (fun rec => (genericRowTxs path defaultWallets verbose rec).2) rows).
Proof. unfold genericTxs. by rewrite (foldl_pairs (genericRowTxs path defaultWallets verbose)). Qed.

Lemma allocation_transfers_perm path defaultWallets assets group :
  NoDup assets ->
  (forall rec, rec ∈ cryptoRows group -> positiveRow rec = true ->
               strings.ToLower (rowAsset rec) ∈ assets) ->
  flat_map (fun asset =>
              map (transferOf path defaultWallets
                     (default [] ((posNegMaps (cryptoRows group)).2 !! asset)))
                  (default [] ((posNegMaps (cryptoRows group)).1 !! asset)))
           assets
  ≡ₚ map (allocationTransfer path defaultWallets group)
         (List.filter positiveRow (cryptoRows group)).
Proof.
  intros Hnd Hcover.
  rewrite <- (group_by_key_perm (fun rec => strings.ToLower (rowAsset rec)) assets
                (List.filter positiveRow (cryptoRows group)) Hnd).
  - rewrite map_flat_map_list. apply Permutation_refl'. apply flat_map_ext. intros a.
    destruct (posNegMaps_spec (cryptoRows group) a) as [-> ->].
    rewrite map_map, filter_filter_and. apply map_ext_elem. intros rec Hrec.
    apply elem_of_filter_bool in Hrec as [_ Hrec]. apply andb_true_iff in Hrec as [_ Hrec].
    apply bool_decide_eq_true in Hrec. subst a. apply transferOf_allocationTransfer.
  - intros rec Hrec. apply elem_of_filter_bool in Hrec as [Hrec Hp]. by apply Hcover.
Qed.

End ParsingBranches.

(** ** Allocation groups *)

(** X9 (allocation groups).  A group of the Kraken format with an
    "allocation" subtype and a crypto row is turned into transfers, one for
    every crypto row of positive quantity and none for the others, whatever
    the order in which the assets are taken (a list without duplicates that
    has the assets of the positive rows).  The transfer of a row goes to the
    wallet of the row, moves the quantity of the row at no cost and no fee,
    and names as its source the wallet of [sourceRow]: the first row of the
    same asset with the opposite-side quantity of the same size, else the
    first row of the asset that is not positive, else no wallet.  Nothing is
    logged. *)
Theorem allocation_rows_become_transfers {lib : ParseLib}
    (path : string) (defaultWallets : list string) (verbose : bool)
    (assets : list string) (group : list RawRecord) :
  groupKind group = Some KindTransfer ->
  NoDup assets ->
  (forall rec, rec ∈ cryptoRows group -> positiveRow rec = true ->
               strings.ToLower (rowAsset rec) ∈ assets) ->
  let out := krakenGroupTxs path defaultWallets verbose assets group in
  out.1 ≡ₚ map (allocationTransfer path defaultWallets group)
               (List.filter positiveRow (cryptoRows group))
  /\ out.2 = []
  /\ Forall (fun tx => Type_ tx = "transfer" /\ (0 < Amount tx)%Q
                       /\ Cost tx = Zero /\ Fee tx = Zero /\ PricePerUnit tx = Zero) out.1.
Proof.
  intros Hkind Hnd Hcover out.
  assert (Hperm : out.1 ≡ₚ map (allocationTransfer path defaultWallets group)
                              (List.filter positiveRow (cryptoRows group))).
  { subst out. rewrite krakenGroupTxs_cases, Hkind. cbn [fst].
    by apply allocation_transfers_perm. }
  split; [done|]. split.
  - subst out. by rewrite krakenGroupTxs_cases, Hkind.
  - rewrite Hperm. apply Forall_forall. intros tx Htx.
    apply list_elem_of_In, in_map_iff in Htx as (rec & <- & Hrec).
    apply filter_In in Hrec as [_ Hpos]. cbn [Type_ Amount Cost Fee PricePerUnit allocationTransfer].
    repeat split. apply Cmp_gt0 in Hpos. unfold Zero in Hpos. unfold Abs.
    rewrite Qabs_pos; [done|]. by apply Qlt_le_weak.
Qed.

(** ** Rows and fiat rows *)

Section ParsingRows.

Context {lib : ParseLib}.

Lemma parseKrakenRecord_inl rec path defaultWallets tx :
  parseKrakenRecord rec path defaultWallets = inl tx ->
  timeParses rec
  /\ Commodity tx = rowAsset rec /\ Amount tx = rowAmount rec /\ Raw tx = rec
  /\ Wallet tx = lookupWallet rec defaultWallets path
  /\ Type_ tx = strings.ToLower (firstNonEmpty rec ["type"; "tx_type"])
  /\ Fee tx = rowFee rec.
Proof.
  unfold parseKrakenRecord, timeParses.
  destruct (decide (firstNonEmpty rec ["time"; "date"; "datetime"] = "")) as [|Hne]; [done|].
  destruct (parseTimeGuess _) as [t|err] eqn:Ht; [|done].
  intros [= <-]. cbn. split; [by eauto|done].
Qed.

Lemma parseKrakenRecord_timeParses rec path defaultWallets :
  timeParses rec -> exists tx, parseKrakenRecord rec path defaultWallets = inl tx.
Proof.
  intros [Hne [t Ht]]. unfold parseKrakenRecord. rewrite decide_False by done.
  rewrite Ht. by eexists.
Qed.

Lemma parseGenericRecord_inl rec path defaultWallets tx :
  parseGenericRecord rec path defaultWallets = inl tx ->
  Commodity tx = firstNonEmpty rec ["asset"; "symbol"; "commodity"; "pair"] /\ Raw tx = rec.
Proof.
  unfold parseGenericRecord.
  destruct (decide (firstNonEmpty rec ["time"; "date"; "datetime"] = "")) as [|Hne]; [done|].
  destruct (parseTimeGuess _) as [t|err] eqn:Ht; [|done].
  by intros [= <-].
Qed.

Lemma skip_test rec :
  (Cmp (parseDecimal (firstNonEmpty rec ["vol"; "amount"; "qty"])) Zero <=? 0)
  = negb (positiveRow rec).
Proof. unfold positiveRow, rowAmount. by rewrite Z.gtb_ltb, Z.leb_antisym. Qed.

(** What a row of a group that is not a transfer group becomes. *)
Lemma rowTxs_spec path defaultWallets verbose inc g rec :
  let out := rowTxs path defaultWallets verbose inc g rec in
  match parseKrakenRecord rec path defaultWallets with
  | inl tx0 =>
      if inc && negb (positiveRow rec) then out = ([], [])
      else exists tx,
          out = ([tx], [])
          /\ Commodity tx = rowAsset rec /\ Amount tx = rowAmount rec /\ Raw tx = rec
          /\ Type_ tx = (if inc then "income" else Type_ tx0)
          /\ (if negb (bool_decide (fiatAsset g = "")) && negb (IsZero (cryptoTotalAbs g))
              then Cost tx = Mul (totalFiat g) (Div (Abs (rowAmount rec)) (cryptoTotalAbs g))
                   /\ Fee tx = Mul (fiatFee g) (Div (Abs (rowAmount rec)) (cryptoTotalAbs g))
                   /\ Currency tx = fiatAsset g
              else Cost tx = Cost tx0 /\ Fee tx = Fee tx0 /\ Currency tx = Currency tx0)
  | inr err =>
      out.1 = [] /\ (verbose = false -> out.2 = [])
  end.
Proof.
  cbn zeta. unfold rowTxs. rewrite skip_test.
  destruct (parseKrakenRecord rec path defaultWallets) as [tx0|err] eqn:Hp.
  - apply parseKrakenRecord_inl in Hp as (_ & Hc & Ha & Hr & _).
    destruct (inc && negb (positiveRow rec)); [done|].
    eexists. split; [reflexivity|].
    destruct (negb (bool_decide (fiatAsset g = "")) && negb (IsZero (cryptoTotalAbs g))) eqn:Hf.
    + apply andb_true_iff in Hf as [_ Hz]. rewrite Hz. rewrite <- Ha.
      destruct inc; cbn; done.
    + destruct inc; cbn; done.
  - destruct (inc && negb (positiveRow rec)); [done|]. cbn. split; [done|]. by intros ->.
Qed.

Lemma asset_column_not_fiat rec :
  isFiat (rowAsset rec) = false -> isFiat (default "" (rec !! "asset")) = false.
Proof.
  intros Hf. destruct (rec !! "asset") as [v|] eqn:Hv; [|done]. cbn [default].
  destruct (decide (strings.TrimSpace v = "")) as [Hb|Hb]; [by apply isFiat_blank|].
  assert (Ha : rowAsset rec = v); [|by rewrite <- Ha].
  unfold rowAsset. cbn [firstNonEmpty].
  change (strings.ToLower "asset") with "asset". unfold nonEmptyAt at 1. rewrite Hv.
  by rewrite decide_False.
Qed.

Lemma elem_of_cryptoRows group rec :
  rec ∈ cryptoRows group <-> rec ∈ group /\ isFiat (rowAsset rec) = false.
Proof.
  unfold cryptoRows. rewrite elem_of_filter_bool. fold (rowAsset rec).
  by rewrite negb_true_iff.
Qed.

Lemma elem_of_flat_map {A B} (f : A -> list B) (l : list A) (y : B) :
  y ∈ flat_map f l <-> exists x, x ∈ l /\ y ∈ f x.
Proof.
  rewrite list_elem_of_In, in_flat_map. split; intros (x & H1 & H2); exists x.
  - by rewrite !list_elem_of_In.
  - by rewrite <- !list_elem_of_In.
Qed.

End ParsingRows.

(** X10 (fiat is no commodity).  No transaction that the parsing pass makes
    of a group of the Kraken format, or of the rows of the generic format,
    has a fiat currency (EUR, USD, GBP, CHF, CAD, AUD, JPY, in any case and
    with blanks around) as its commodity: fiat rows only price the crypto
    rows. *)
Theorem fiat_is_never_a_commodity {lib : ParseLib}
    (path : string) (defaultWallets : list string) (verbose : bool)
    (assets : list string) (group rows : list RawRecord) :
  Forall (fun tx => isFiat (Commodity tx) = false)
         (krakenGroupTxs path defaultWallets verbose assets group).1
  /\ Forall (fun tx => isFiat (Commodity tx) = false)
            (genericTxs path defaultWallets verbose rows).1.
Proof.
  split; apply Forall_forall; intros tx Htx.
  - rewrite krakenGroupTxs_cases in Htx.
    assert (Hrows : forall inc,
      tx ∈ flat_map (fun rec => (rowTxs path defaultWallets verbose inc (totalsOf group) rec).1)
                    (cryptoRows group) -> isFiat (Commodity tx) = false).
    { intros inc H. apply elem_of_flat_map in H as (rec & Hrec & H).
      apply elem_of_cryptoRows in Hrec as [_ Hrec].
      pose proof (rowTxs_spec path defaultWallets verbose inc (totalsOf group) rec) as Hs.
      cbn zeta in Hs. destruct (parseKrakenRecord rec path defaultWallets).
      - destruct (inc && negb (positiveRow rec)).
        + rewrite Hs in H. by apply elem_of_nil in H.
        + destruct Hs as (tx' & Hs & Hc & _). rewrite Hs in H. cbn [fst] in H.
          apply list_elem_of_singleton in H as ->. by rewrite Hc.
      - destruct Hs as [Hs _]. rewrite Hs in H. by apply elem_of_nil in H. }
    destruct (groupKind group) as [[]|]; cbn [fst] in Htx.
    + by apply (Hrows false).
    + by apply (Hrows true).
    + apply elem_of_flat_map in Htx as (a & _ & Htx).
      destruct (posNegMaps_spec (cryptoRows group) a) as [Hpos _]. rewrite Hpos in Htx.
      apply list_elem_of_In in Htx. rewrite map_map in Htx.
      apply in_map_iff in Htx as (rec & <- & Hrec).
      apply filter_In in Hrec as [Hrec _]. apply list_elem_of_In, elem_of_cryptoRows in Hrec.
      cbn [transferOf Commodity ri_rec rowInfoOf]. apply asset_column_not_fiat, Hrec.
    + by apply elem_of_nil in Htx.
  - rewrite genericTxs_flat in Htx. cbn [fst] in Htx.
    apply elem_of_flat_map in Htx as (rec & _ & Htx). unfold genericRowTxs in Htx.
    destruct (isFiat _) eqn:Hf; [by apply elem_of_nil in Htx|].
    destruct (parseGenericRecord rec path defaultWallets) as [tx'|] eqn:Hp;
      [|by apply elem_of_nil in Htx].
    apply list_elem_of_singleton in Htx as ->.
    apply parseGenericRecord_inl in Hp as [-> _]. done.
Qed.

(** ** The fiat side of a trade *)

Lemma Forall2_elem_r {A B} (P : A -> B -> Prop) (l : list A) (k : list B) (y : B) :
  Forall2 P l k -> y ∈ k -> exists x, x ∈ l /\ P x y.
Proof.
  induction 1 as [|x y' l k HP H IH]; intros Hy; [by apply elem_of_nil in Hy|].
  apply elem_of_cons in Hy as [->|Hy].
  - exists x. split; [by left|done].
  - destruct (IH Hy) as (x' & Hx' & HP'). exists x'. split; [by right|done].
Qed.

Section ParsingGroups.

Context {lib : ParseLib}.

(** The transactions of a group that is not a transfer group, row by row. *)
Lemma rows_emitted path defaultWallets verbose inc g rows :
  Forall timeParses rows ->
  (inc = true -> Forall (fun rec => positiveRow rec = true) rows) ->
  exists txs,
    flat_map (fun rec => (rowTxs path defaultWallets verbose inc g rec).1) rows = txs
    /\ flat_map (fun rec => (rowTxs path defaultWallets verbose inc g rec).2) rows = []
    /\ map Raw txs = rows
    /\ Forall2 (fun rec tx =>
                  Amount tx = rowAmount rec
                  /\ (negb (bool_decide (fiatAsset g = "")) && negb (IsZero (cryptoTotalAbs g))
                      = true ->
                      Cost tx = Mul (totalFiat g) (Div (Abs (rowAmount rec)) (cryptoTotalAbs g))
                      /\ Fee tx = Mul (fiatFee g) (Div (Abs (rowAmount rec)) (cryptoTotalAbs g))
                      /\ Currency tx = fiatAsset g))
               rows txs.
Proof.
  intros Htime Hpos. induction rows as [|rec rows IH].
  - exists []. by repeat split.
  - apply Forall_cons in Htime as [Ht Htime].
    destruct IH as (txs & H1 & H2 & H3 & H4); [done| |].
    { intros Hi. specialize (Hpos Hi). by apply Forall_cons in Hpos as [_ ?]. }
    pose proof (rowTxs_spec path defaultWallets verbose inc g rec) as Hs. cbn zeta in Hs.
    destruct (parseKrakenRecord_timeParses rec path defaultWallets Ht) as [tx0 Hp].
    rewrite Hp in Hs.
    assert (Hskip : inc && negb (positiveRow rec) = false).
    { destruct inc; [|done]. specialize (Hpos eq_refl). apply Forall_cons in Hpos as [-> _].
      done. }
    rewrite Hskip in Hs. destruct Hs as (tx & Hs & Hc & Ha & Hr & Hty & Hal).
    exists (tx :: txs). cbn [flat_map]. rewrite Hs, H1, H2. cbn [fst snd app map].
    rewrite Hr, H3. repeat split; try done. constructor; [|done]. split; [done|].
    intros Hf. by rewrite Hf in Hal.
Qed.

Lemma sum_shares_close (val : Tx -> Q) F T rows txs :
  ~ (T == 0)%Q ->
  Forall2 (fun rec tx => val tx = Mul F (Div (Abs (rowAmount rec)) T)) rows txs ->
  (Qabs (foldr (fun tx acc => val tx + acc) 0 txs - F * (sumAbsAmounts rows / T))
   <= inject_Z (Z.of_nat (length rows)) * (Qabs F * (1 # 20000000000000000)))%Q.
Proof.
  intros HT H. induction H as [|rec tx rows txs Hc H IH].
  - cbn [sumAbsAmounts foldr length Z.of_nat]. change (inject_Z 0) with 0%Q.
    assert (H0 : (0 - F * (0 / T) == 0)%Q) by (field; done).
    rewrite H0, Qmult_0_l. apply Qle_refl.
  - cbn [sumAbsAmounts foldr length]. fold (sumAbsAmounts rows).
    rewrite Nat2Z.inj_succ, <- Z.add_1_r, inject_Z_plus. change (inject_Z 1) with 1%Q.
    rewrite Hc. unfold Mul, Abs.
    pose proof (Div_close (Qabs (rowAmount rec)) T HT) as Hd.
    set (d := Div (Qabs (rowAmount rec)) T) in *.
    set (S := foldr (fun tx acc => val tx + acc)%Q 0%Q txs) in *.
    set (n := inject_Z (Z.of_nat (length rows))) in *.
    set (e := (1 # 20000000000000000)%Q) in *.
    assert (Heq : (F * d + S - F * ((Qabs (rowAmount rec) + sumAbsAmounts rows) / T)
                   == F * (d - Qabs (rowAmount rec) / T)
                      + (S - F * (sumAbsAmounts rows / T)))%Q)
      by (field; done).
    rewrite Heq. eapply Qle_trans; [apply Qabs_triangle|].
    rewrite Qabs_Qmult.
    assert (H1 : (Qabs F * Qabs (d - Qabs (rowAmount rec) / T) <= Qabs F * e)%Q).
    { rewrite !(Qmult_comm (Qabs F)). apply Qmult_le_compat_r; [done|apply Qabs_nonneg]. }
    lra.
Qed.

End ParsingGroups.

(** X12 (fiat allocation).  In a group of the Kraken format that is a trade
    (neither an allocation nor a reward group), with at least one fiat row,
    crypto rows of non-zero total quantity and a readable time on every
    crypto row, every crypto row becomes one transaction, in the order of
    the rows.  The fiat total (the sum of the absolute fiat quantities) is
    shared out in proportion to the absolute quantities: the cost of a
    transaction is the fiat total times the quotient, rounded to 16 places,
    of its quantity by the crypto total; so the costs add up to the fiat
    total, and the fees to the fiat fee total, up to half a unit of the 16th
    place, times the total, for every row. *)
Theorem fiat_is_allocated_in_proportion {lib : ParseLib}
    (path : string) (defaultWallets : list string) (verbose : bool)
    (assets : list string) (group : list RawRecord) :
  groupKind group = Some KindTrade ->
  fiatRows group <> [] ->
  ~ (sumAbsAmounts (cryptoRows group) == 0)%Q ->
  Forall timeParses (cryptoRows group) ->
  let out := krakenGroupTxs path defaultWallets verbose assets group in
  let fiat := sumAbsAmounts (fiatRows group) in
  let fee := sumFees (fiatRows group) in
  let total := sumAbsAmounts (cryptoRows group) in
  let n := inject_Z (Z.of_nat (length (cryptoRows group))) in
  map Raw out.1 = cryptoRows group
  /\ out.2 = []
  /\ Forall (fun tx =>
               isFiat (Currency tx) = true
               /\ (Qabs (Cost tx - fiat * (Qabs (Amount tx) / total))
                   <= fiat * (1 # 20000000000000000))%Q) out.1
  /\ (Qabs (sumCost out.1 - fiat) <= n * (fiat * (1 # 20000000000000000)))%Q
  /\ (Qabs (sumFee out.1 - fee) <= n * (Qabs fee * (1 # 20000000000000000)))%Q.
Proof.
  intros Hkind Hfiat Htotal Htime out fiat fee total n.
  destruct (totalsOf_spec group) as (_ & HF & HE & HT & HA). cbn zeta in *.
  set (g := totalsOf group) in *.
  assert (HTg : ~ (cryptoTotalAbs g == 0)%Q) by (by rewrite HT).
  assert (Hflag : negb (bool_decide (fiatAsset g = "")) && negb (IsZero (cryptoTotalAbs g))
                  = true).
  { apply andb_true_iff. split; apply negb_true_iff.
    - apply bool_decide_eq_false. by rewrite HA.
    - by apply IsZero_false. }
  destruct (rows_emitted path defaultWallets verbose false g (cryptoRows group) Htime)
    as (txs & H1 & H2 & H3 & H4); [done|].
  assert (Hout : out = (txs, [])).
  { subst out. rewrite krakenGroupTxs_cases, Hkind. cbn zeta. fold g. by rewrite H1, H2. }
  rewrite Hout. cbn [fst snd]. split; [done|]. split; [done|].
  assert (Hfnn : (0 <= fiat)%Q).
  { subst fiat. clear. induction (fiatRows group) as [|rec l IH]; [done|].
    cbn [sumAbsAmounts foldr]. fold (sumAbsAmounts l).
    pose proof (Qabs_nonneg (rowAmount rec)). lra. }
  assert (Hlast : isFiat (fiatAsset g) = true).
  { clear -lib Hfiat. subst g. unfold totalsOf.
    assert (Hgen : forall g0, (fiatRows group <> [] \/ isFiat (fiatAsset g0) = true) ->
                              isFiat (fiatAsset (foldl totalsStep g0 group)) = true).
    { clear. induction group as [|rec l IH]; intros g0 [H|H]; try done.
      - cbn [foldl]. apply IH. unfold fiatRows in *. cbn [List.filter] in H.
        unfold totalsStep. fold (rowAsset rec).
        destruct (isFiat (rowAsset rec)) eqn:Hf; cbn [fiatAsset]; [by right|by left].
      - cbn [foldl]. apply IH. right. unfold totalsStep. fold (rowAsset rec).
        by destruct (isFiat (rowAsset rec)) eqn:Hf; cbn [fiatAsset]. }
    apply Hgen. by left. }
  split; [|split].
  - apply Forall_forall. intros tx Htx.
    destruct (Forall2_elem_r _ _ _ _ H4 Htx) as (rec & _ & Ha & Hal).
    destruct (Hal Hflag) as (Hc & _ & Hcur). rewrite Hcur. split; [done|].
    rewrite Hc, Ha. unfold Mul, Abs.
    pose proof (Div_close (Qabs (rowAmount rec)) (cryptoTotalAbs g) HTg) as Hd.
    set (d := Div (Qabs (rowAmount rec)) (cryptoTotalAbs g)) in *.
    assert (Heq : (totalFiat g * d - fiat * (Qabs (rowAmount rec) / total)
                   == fiat * (d - Qabs (rowAmount rec) / cryptoTotalAbs g))%Q).
    { rewrite HF. fold fiat. rewrite HT. fold total. field. done. }
    rewrite Heq, Qabs_Qmult, (Qabs_pos fiat Hfnn).
    rewrite !(Qmult_comm fiat). apply Qmult_le_compat_r; done.
  - pose proof (sum_shares_close Cost (totalFiat g) (cryptoTotalAbs g) (cryptoRows group) txs
                  HTg) as Hs.
    assert (Hone : (totalFiat g * (sumAbsAmounts (cryptoRows group) / cryptoTotalAbs g)
                    == fiat)%Q).
    { rewrite HF, HT. fold fiat total. field. done. }
    rewrite Hone, HF in Hs. fold fiat in Hs. rewrite (Qabs_pos fiat Hfnn) in Hs.
    apply Hs. eapply Forall2_impl; [apply H4|]. intros rec tx [_ Hal]. by destruct (Hal Hflag).
  - pose proof (sum_shares_close Fee (fiatFee g) (cryptoTotalAbs g) (cryptoRows group) txs
                  HTg) as Hs.
    assert (Hone : (fiatFee g * (sumAbsAmounts (cryptoRows group) / cryptoTotalAbs g)
                    == fee)%Q).
    { rewrite HE, HT. fold fee total. field. done. }
    rewrite Hone, HE in Hs. fold fee in Hs.
    apply Hs. eapply Forall2_impl; [apply H4|]. intros rec tx [_ Hal].
    by destruct (Hal Hflag) as (_ & ? & _).
Qed.

(** ** Reward groups, and the samples *)

Section ParsingIncome.

Context {lib : ParseLib}.

Lemma rowTxs_skipped path defaultWallets verbose g rec :
  positiveRow rec = false -> rowTxs path defaultWallets verbose true g rec = ([], []).
Proof. intros Hp. unfold rowTxs. by rewrite skip_test, Hp. Qed.

Lemma income_rows_emitted path defaultWallets verbose g rows :
  Forall timeParses (List.filter positiveRow rows) ->
  map Raw (flat_map (fun rec => (rowTxs path defaultWallets verbose true g rec).1) rows)
  = List.filter positiveRow rows
  /\ flat_map (fun rec => (rowTxs path defaultWallets verbose true g rec).2) rows = [].
Proof.
  induction rows as [|rec rows IH]; intros Ht; [done|]. cbn [flat_map List.filter] in *.
  destruct (positiveRow rec) eqn:Hp.
  - apply Forall_cons in Ht as [Ht Hts]. destruct (IH Hts) as [IH1 IH2].
    pose proof (rowTxs_spec path defaultWallets verbose true g rec) as Hs. cbn zeta in Hs.
    destruct (parseKrakenRecord_timeParses rec path defaultWallets Ht) as [tx0 Hp0].
    rewrite Hp0, Hp in Hs. cbn [andb negb] in Hs.
    destruct Hs as (tx & Hs & _ & _ & Hr & _). rewrite Hs. cbn [fst snd app map].
    by rewrite Hr, IH1, IH2.
  - rewrite rowTxs_skipped by done. cbn [fst snd app]. by apply IH.
Qed.

End ParsingIncome.

(** X11 (reward groups).  A group of the Kraken format with an earn, reward
    or staking type, no allocation subtype and a crypto row gives only
    transactions of type "income" and of positive quantity, which the
    processing pass hands to [handleIncome]: the negative side of the group
    never becomes a sale.  When the positive rows have a readable time, the
    transactions are these rows, one for one and in their order, and nothing
    is logged. *)
Theorem reward_groups_only_add_income {lib : ParseLib} {sorter : SliceSort}
    (path : string) (defaultWallets : list string) (verbose : bool)
    (assets : list string) (group : list RawRecord) :
  groupKind group = Some KindIncome ->
  let out := krakenGroupTxs path defaultWallets verbose assets group in
  Forall (fun tx => Type_ tx = "income" /\ (0 < Amount tx)%Q
                    /\ (getHandlers !! normalizeType (Type_ tx) : option txHandlerFunc)
                       = Some handleIncome) out.1
  /\ (Forall timeParses (List.filter positiveRow (cryptoRows group)) ->
      map Raw out.1 = List.filter positiveRow (cryptoRows group) /\ out.2 = []).
Proof.
  intros Hkind out. subst out. rewrite krakenGroupTxs_cases, Hkind. cbn zeta. cbn [fst snd].
  split.
  - apply Forall_forall. intros tx Htx. apply elem_of_flat_map in Htx as (rec & _ & Htx).
    pose proof (rowTxs_spec path defaultWallets verbose true (totalsOf group) rec) as Hs.
    cbn zeta in Hs. destruct (parseKrakenRecord rec path defaultWallets).
    + destruct (positiveRow rec) eqn:Hp; cbn [andb negb] in Hs.
      * destruct Hs as (tx' & Hs & _ & Ha & _ & Hty & _). rewrite Hs in Htx.
        apply list_elem_of_singleton in Htx as ->. rewrite Hty, Ha.
        split; [done|]. split; [by apply Cmp_gt0 in Hp|].
        by apply getHandlers_table; set_solver.
      * rewrite Hs in Htx. by apply elem_of_nil in Htx.
    + destruct Hs as [Hs _]. rewrite Hs in Htx. by apply elem_of_nil in Htx.
  - apply income_rows_emitted.
Qed.

Lemma filter_cons_true {A} (f : A -> bool) (x : A) (l : list A) :
  f x = true -> List.filter f (x :: l) = x :: List.filter f l.
Proof. intros H. cbn. by rewrite H. Qed.

Lemma filter_cons_false {A} (f : A -> bool) (x : A) (l : list A) :
  f x = false -> List.filter f (x :: l) = List.filter f l.
Proof. intros H. cbn. by rewrite H. Qed.

(** Evaluates a [List.filter] over a list of closed rows, test by test. *)
Ltac filter_rows :=
  repeat first [ rewrite filter_cons_true by (vm_compute; reflexivity)
               | rewrite filter_cons_false by (vm_compute; reflexivity) ];
  cbn [List.filter].

(** A reward group of two rows: the payout of 3 DOT and its negative
    side. *)
Lemma reward_groups_only_add_income_witness :
  let group := [sampleRow "earn" "" "DOT" "earn" "-3" "0";
                sampleRow "earn" "" "DOT" "spot" "3" "0"] in
  let out := krakenGroupTxs (lib := sampleLib) "ledger.csv" [] false [] group in
  groupKind group = Some KindIncome
  /\ Forall (fun tx => Type_ tx = "income" /\ (0 < Amount tx)%Q) out.1
  /\ map Amount out.1 = [3%Q].
Proof.
  intros group out.
  assert (Hkind : groupKind group = Some KindIncome) by (vm_compute; reflexivity).
  split; [done|]. split; [|vm_compute; reflexivity].
  destruct (reward_groups_only_add_income (lib := sampleLib) (sorter := insertion_sorter)
              "ledger.csv" [] false [] group Hkind) as [Hall _].
  eapply Forall_impl; [apply Hall|]. intros tx (Hty & Ha & _). done.
Defined.

(** An allocation of 2 ETH from the spot wallet to the earn wallet. *)
Lemma allocation_rows_become_transfers_witness :
  let group := [sampleRow "transfer" "allocation" "ETH" "spot" "-2" "0";
                sampleRow "transfer" "allocation" "ETH" "earn" "2" "0"] in
  let out := krakenGroupTxs (lib := sampleLib) "ledger.csv" [] false ["eth"] group in
  groupKind group = Some KindTransfer
  /\ NoDup ["eth"]
  /\ out.1 ≡ₚ map (allocationTransfer (lib := sampleLib) "ledger.csv" [] group)
                  (List.filter (positiveRow (lib := sampleLib)) (cryptoRows group))
  /\ map (fun tx => (PairedComment tx, Wallet tx, Amount tx)) out.1 = [("spot", "earn", 2%Q)].
Proof.
  intros group out.
  assert (Hkind : groupKind group = Some KindTransfer) by (vm_compute; reflexivity).
  assert (Hnd : NoDup ["eth"]) by (apply NoDup_singleton).
  split; [done|]. split; [done|]. split; [|vm_compute; reflexivity].
  apply (allocation_rows_become_transfers (lib := sampleLib) "ledger.csv" [] false ["eth"]
           group Hkind Hnd).
  intros rec Hrec _. unfold cryptoRows, group in Hrec. revert Hrec. filter_rows. intros Hrec.
  apply elem_of_cons in Hrec as [->|Hrec]; [vm_compute; left|].
  apply list_elem_of_singleton in Hrec as ->. vm_compute. left.
Defined.

(** A purchase of 1 BTC and 3 ETH for 400 EUR and a fee of 2 EUR. *)
Lemma fiat_is_allocated_in_proportion_witness :
  let group := [sampleRow "trade" "" "EUR" "spot" "-400" "2";
                sampleRow "trade" "" "BTC" "spot" "1" "0";
                sampleRow "trade" "" "ETH" "spot" "3" "0"] in
  let out := krakenGroupTxs (lib := sampleLib) "ledger.csv" [] false [] group in
  groupKind group = Some KindTrade
  /\ fiatRows group <> []
  /\ ~ (sumAbsAmounts (lib := sampleLib) (cryptoRows group) == 0)%Q
  /\ Forall (timeParses (lib := sampleLib)) (cryptoRows group)
  /\ map Raw out.1 = cryptoRows group
  /\ (Qabs (sumCost out.1 - sumAbsAmounts (lib := sampleLib) (fiatRows group))
      <= inject_Z (Z.of_nat (length (cryptoRows group)))
         * (sumAbsAmounts (lib := sampleLib) (fiatRows group)
            * (1 # 20000000000000000)))%Q
  /\ (sumCost out.1 == 400)%Q.
Proof.
  intros group out.
  assert (Hkind : groupKind group = Some KindTrade) by (vm_compute; reflexivity).
  assert (Hfiat : fiatRows group <> []) by (unfold fiatRows, group; filter_rows; discriminate).
  assert (Htotal : ~ (sumAbsAmounts (lib := sampleLib) (cryptoRows group) == 0)%Q)
    by (vm_compute; discriminate).
  assert (Htime : Forall (timeParses (lib := sampleLib)) (cryptoRows group)).
  { unfold cryptoRows, group. filter_rows.
    repeat constructor; try (intros H; vm_compute in H; discriminate);
      exists (day 1); vm_compute; reflexivity. }
  split; [done|]. split; [done|]. split; [done|]. split; [done|].
  destruct (fiat_is_allocated_in_proportion (lib := sampleLib) "ledger.csv" [] false [] group
              Hkind Hfiat Htotal Htime) as (Hraw & _ & _ & Hcost & _).
  split; [done|]. split; [done|]. vm_compute. reflexivity.
Defined.

(** * Properties of the merge *)

Lemma nat_of_ascii_inj c d : nat_of_ascii c = nat_of_ascii d -> c = d.
Proof. intros H. rewrite <- (ascii_nat_embedding c), <- (ascii_nat_embedding d). by rewrite H. Qed.

Lemma stringLess_cons x a y b :
  stringLess (String x a) (String y b)
  = if (nat_of_ascii x <? nat_of_ascii y)%nat then true
    else if (nat_of_ascii y <? nat_of_ascii x)%nat then false
    else stringLess a b.
Proof. reflexivity. Qed.

Lemma stringLess_irrefl a : stringLess a a = false.
Proof.
  induction a as [|c a IH]; [done|]. by rewrite stringLess_cons, Nat.ltb_irrefl.
Qed.

Lemma stringLess_trans a b c :
  stringLess a b = true -> stringLess b c = true -> stringLess a c = true.
Proof.
  revert b c. induction a as [|x a IH]; intros [|y b] [|z c]; try done.
  rewrite !stringLess_cons.
  destruct (Nat.ltb_spec (nat_of_ascii x) (nat_of_ascii y)) as [Hxy|Hxy];
    destruct (Nat.ltb_spec (nat_of_ascii y) (nat_of_ascii z)) as [Hyz|Hyz];
    destruct (Nat.ltb_spec (nat_of_ascii x) (nat_of_ascii z)) as [Hxz|Hxz];
    destruct (Nat.ltb_spec (nat_of_ascii y) (nat_of_ascii x)) as [Hyx|Hyx];
    destruct (Nat.ltb_spec (nat_of_ascii z) (nat_of_ascii y)) as [Hzy|Hzy];
    destruct (Nat.ltb_spec (nat_of_ascii z) (nat_of_ascii x)) as [Hzx|Hzx];
    try done; try lia.
  apply IH.
Qed.

Lemma stringLess_total a b : stringLess a b = false -> stringLess b a = false -> a = b.
Proof.
  revert b. induction a as [|x a IH]; intros [|y b]; try done.
  rewrite !stringLess_cons.
  destruct (Nat.ltb_spec (nat_of_ascii x) (nat_of_ascii y)) as [Hxy|Hxy]; [done|].
  destruct (Nat.ltb_spec (nat_of_ascii y) (nat_of_ascii x)) as [Hyx|Hyx]; [done|].
  intros H1 H2. assert (x = y) as -> by (apply nat_of_ascii_inj; lia).
  by rewrite (IH b H1 H2).
Qed.

Lemma stringLess_asym a b : stringLess a b = true -> stringLess b a = false.
Proof.
  intros H. destruct (stringLess b a) eqn:H'; [|done].
  pose proof (stringLess_trans _ _ _ H H') as Ht. by rewrite stringLess_irrefl in Ht.
Qed.

Lemma stringLess_neg_trans a b c :
  stringLess a b = false -> stringLess b c = false -> stringLess a c = false.
Proof.
  intros Hab Hbc. destruct (stringLess a c) eqn:Hac; [|done].
  destruct (stringLess b a) eqn:Hba.
  - by rewrite (stringLess_trans _ _ _ Hba Hac) in Hbc.
  - rewrite (stringLess_total a b Hab Hba) in Hac. by rewrite Hac in Hbc.
Qed.

(** [txLess] is the lexicographic order of instant, source file and
    reference id. *)
Lemma txLess_spec a b :
  txLess a b = true <->
  unixNano (Time_ a) < unixNano (Time_ b)
  \/ (unixNano (Time_ a) = unixNano (Time_ b)
      /\ (stringLess (SourceFile a) (SourceFile b) = true
          \/ (SourceFile a = SourceFile b
              /\ stringLess (ReferenceID a) (ReferenceID b) = true))).
Proof.
  unfold txLess, time.Equal, time.Before.
  destruct (Z.eqb_spec (unixNano (Time_ a)) (unixNano (Time_ b))) as [He|Hne].
  - destruct (decide (SourceFile a <> SourceFile b)) as [Hs|Hs].
    + split; [intros H; right; split; [done|by left]|].
      intros [?|[_ [?|[? _]]]]; [lia|done|done].
    + apply dec_stable in Hs. split; [intros H; right; split; [done|by right]|].
      intros [?|[_ [H|[_ ?]]]]; [lia| |done].
      rewrite Hs in H. by rewrite stringLess_irrefl in H.
  - rewrite Z.ltb_lt. split; [by left|]. intros [?|[? _]]; [done|lia].
Qed.

Lemma txLess_false a b :
  txLess a b = false <->
  unixNano (Time_ b) < unixNano (Time_ a)
  \/ (unixNano (Time_ a) = unixNano (Time_ b)
      /\ (stringLess (SourceFile b) (SourceFile a) = true
          \/ (SourceFile a = SourceFile b
              /\ stringLess (ReferenceID a) (ReferenceID b) = false))).
Proof.
  rewrite <- Bool.not_true_iff_false, txLess_spec. split.
  - intros H.
    destruct (Z.lt_trichotomy (unixNano (Time_ a)) (unixNano (Time_ b))) as [?|[He|?]];
      [by destruct H; left|right; split; [done|]|by left].
    destruct (stringLess (SourceFile b) (SourceFile a)) eqn:Hba; [by left|right].
    destruct (stringLess (SourceFile a) (SourceFile b)) eqn:Hab.
    { destruct H. right. split; [done|by left]. }
    pose proof (stringLess_total _ _ Hab Hba) as Hs. split; [done|].
    destruct (stringLess (ReferenceID a) (ReferenceID b)) eqn:Hr; [|done].
    destruct H. right. split; [done|]. right. done.
  - intros [H|[He [H|[Hs H]]]] [H'|[He' [H'|[Hs' H']]]]; try lia.
    + by rewrite (stringLess_asym _ _ H) in H'.
    + rewrite Hs' in H. by rewrite stringLess_irrefl in H.
    + rewrite Hs in H'. by rewrite stringLess_irrefl in H'.
    + by rewrite H in H'.
Qed.

Lemma txLess_irrefl a : txLess a a = false.
Proof. apply txLess_false. right. split; [done|]. right. split; [done|apply stringLess_irrefl]. Qed.

Lemma txLess_trans a b c : txLess a b = true -> txLess b c = true -> txLess a c = true.
Proof.
  rewrite !txLess_spec.
  intros [H1|[E1 [H1|[S1 H1]]]] [H2|[E2 [H2|[S2 H2]]]]; try (left; lia); right;
    (split; [lia|]).
  - left. by apply (stringLess_trans _ _ _ H1 H2).
  - left. by rewrite <- S2.
  - left. by rewrite S1.
  - right. split; [congruence|]. by apply (stringLess_trans _ _ _ H1 H2).
Qed.

Lemma txLess_neg_trans a b c : txLess a b = false -> txLess b c = false -> txLess a c = false.
Proof.
  rewrite !txLess_false.
  intros [H1|[E1 [H1|[S1 H1]]]] [H2|[E2 [H2|[S2 H2]]]]; try (left; lia); right;
    (split; [lia|]).
  - left. by apply (stringLess_trans _ _ _ H2 H1).
  - left. by rewrite <- S2.
  - left. by rewrite S1.
  - right. split; [congruence|]. by apply (stringLess_neg_trans _ _ _ H1 H2).
Qed.

Lemma txLess_asym a b : txLess a b = true -> txLess b a = false.
Proof.
  intros H. destruct (txLess b a) eqn:H'; [|done].
  pose proof (txLess_trans _ _ _ H H') as Ht. by rewrite txLess_irrefl in Ht.
Qed.

Lemma insertTx_perm x l : insertTx x l ≡ₚ x :: l.
Proof.
  induction l as [|y l IH]; [done|]. cbn. destruct (txLess x y); [done|].
  rewrite IH. apply perm_swap.
Qed.

Lemma insertTx_sorted x l :
  Sorted (fun a b => txLess b a = false) l ->
  Sorted (fun a b => txLess b a = false) (insertTx x l).
Proof.
  induction l as [|y l IH]; intros Hs; cbn.
  - by repeat constructor.
  - destruct (txLess x y) eqn:Hxy.
    + constructor; [done|]. constructor. by apply txLess_asym.
    + apply Sorted_inv in Hs as [Hs Hhd]. constructor; [by apply IH|].
      destruct l as [|z l]; cbn.
      * by constructor.
      * destruct (txLess x z); constructor; [done|]. by apply HdRel_inv in Hhd.
Qed.

#[export] Instance insertion_txsorter_spec : TxSliceSortSpec insertion_txsorter.
Proof.
  split; intros l; unfold sort_Slice_txs, insertion_txsorter, insertionSortTxs.
  - induction l as [|x l IH]; [done|]. cbn. by rewrite insertTx_perm, IH.
  - induction l as [|x l IH]; [constructor|]. cbn. by apply insertTx_sorted.
Qed.

Lemma StronglySorted_impl {A} (R R' : A -> A -> Prop) (l : list A) :
  (forall a b, R a b -> R' a b) -> StronglySorted R l -> StronglySorted R' l.
Proof.
  intros HR. induction 1 as [|x l Hl IH Hx]; constructor; [done|].
  eapply Forall_impl; [exact Hx|]. intros y. apply HR.
Qed.

(** X13 (the order of the merge).  The [less] function of
    [mergeAndSortTxs] is a strict weak order, as [sort.Slice] asks: no
    transaction is less than itself, less is transitive, and so is "neither
    is less".  Two transactions are tied only when they have the same
    instant (whatever their time zones), the same source file and the same
    reference id; a transaction at an earlier instant is always less. *)
Theorem merge_order_is_a_strict_weak_order :
  (forall a, txLess a a = false)
  /\ (forall a b c, txLess a b = true -> txLess b c = true -> txLess a c = true)
  /\ (forall a b c, txLess a b = false -> txLess b c = false -> txLess a c = false)
  /\ (forall a b, txLess a b = false -> txLess b a = false ->
                  unixNano (Time_ a) = unixNano (Time_ b)
                  /\ SourceFile a = SourceFile b /\ ReferenceID a = ReferenceID b)
  /\ (forall a b, unixNano (Time_ a) < unixNano (Time_ b) -> txLess a b = true).
Proof.
  split; [apply txLess_irrefl|]. split; [apply txLess_trans|].
  split; [apply txLess_neg_trans|]. split.
  - intros a b. rewrite !txLess_false.
    intros [H1|[E1 [H1|[S1 H1]]]] [H2|[E2 [H2|[S2 H2]]]]; try lia.
    + by rewrite (stringLess_asym _ _ H1) in H2.
    + rewrite S2 in H1. by rewrite stringLess_irrefl in H1.
    + rewrite S1 in H2. by rewrite stringLess_irrefl in H2.
    + split; [done|]. split; [done|]. by apply stringLess_total.
  - intros a b H. apply txLess_spec. by left.
Qed.

(** X14 (the merged list).  Whatever the algorithm of [sort.Slice], as long
    as it returns a permutation with no element less than the one before:
    [mergeAndSortTxs] returns the transactions of all the files, each as
    often as it is there, and in this list no transaction comes after one
    of a later instant; transactions of one instant come by source file,
    then by reference id. *)
Theorem merged_transactions_are_in_time_order {txsorter : TxSliceSort}
    {txsorter_spec : TxSliceSortSpec txsorter} (all : list (list Tx)) :
  mergeAndSortTxs all ≡ₚ concat all
  /\ StronglySorted (fun a b => txLess b a = false) (mergeAndSortTxs all)
  /\ StronglySorted (fun a b => unixNano (Time_ a) <= unixNano (Time_ b))
                    (mergeAndSortTxs all).
Proof.
  unfold mergeAndSortTxs. split; [apply sort_Slice_txs_perm|].
  assert (Hs : StronglySorted (fun a b => txLess b a = false) (sort_Slice_txs (concat all))).
  { apply Sorted_StronglySorted; [|apply sort_Slice_txs_sorted].
    intros a b c Hab Hbc. by apply (txLess_neg_trans c b a). }
  split; [done|]. eapply StronglySorted_impl; [|exact Hs].
  intros a b H. destruct (Z.le_gt_cases (unixNano (Time_ a)) (unixNano (Time_ b))) as [|Hlt];
    [done|].
  assert (txLess b a = true) by (apply txLess_spec; left; lia). congruence.
Qed.

(** Two files whose rows interleave in time. *)
Lemma merged_transactions_are_in_time_order_witness :
  let a := tx "w" "buy" "ETH" (day 1) 1 100 0 in
  let b := tx "w" "buy" "ETH" (day 2) 1 100 0 in
  let c := tx "w" "sell" "ETH" (day 3) (-1) 100 0 in
  mergeAndSortTxs (txsorter := insertion_txsorter) [[a; c]; [b]] ≡ₚ concat [[a; c]; [b]]
  /\ StronglySorted (fun a b => unixNano (Time_ a) <= unixNano (Time_ b))
                    (mergeAndSortTxs (txsorter := insertion_txsorter) [[a; c]; [b]])
  /\ mergeAndSortTxs (txsorter := insertion_txsorter) [[a; c]; [b]] = [a; b; c].
Proof.
  intros a b c.
  destruct (merged_transactions_are_in_time_order
              (txsorter_spec := insertion_txsorter_spec) [[a; c]; [b]]) as (Hp & _ & Hs).
  split; [done|]. split; [done|]. vm_compute. reflexivity.
Defined.

(** * Properties of the filters and of the report *)

(** A set built by a loop of [m[key] = true], some keys being skipped. *)
Lemma set_loop_lookup (step : gmap string bool -> string -> gmap string bool)
    (key : string -> option string) :
  (forall m x, step m x = match key x with Some k => <[k := true]> m | None => m end) ->
  forall l m0 k,
    foldl step m0 l !! k
    = if bool_decide (k ∈ omap key l) then Some true else m0 !! k.
Proof.
  intros Hstep. induction l as [|x l IH]; intros m0 k; cbn [foldl omap list_omap].
  - rewrite bool_decide_eq_false_2; [done|]. apply not_elem_of_nil.
  - rewrite IH, Hstep. destruct (key x) as [k'|] eqn:Hk; [|done].
    destruct (bool_decide_reflect (k ∈ omap key l)) as [Hin|Hin].
    + rewrite bool_decide_eq_true_2; [done|]. by right.
    + destruct (decide (k' = k)) as [->|Hne].
      * rewrite lookup_insert_eq, bool_decide_eq_true_2; [done|]. by left.
      * rewrite lookup_insert_ne by done. rewrite bool_decide_eq_false_2; [done|].
        intros [?|?]%elem_of_cons; done.
Qed.

Lemma set_loop_size (step : gmap string bool -> string -> gmap string bool)
    (key : string -> option string) l :
  (forall m x, step m x = match key x with Some k => <[k := true]> m | None => m end) ->
  (0 <? size (foldl step ∅ l))%nat = negb (bool_decide (omap key l = [])).
Proof.
  intros Hstep. destruct (omap key l) as [|k ks] eqn:Hl.
  - assert (Hm : foldl step ∅ l = ∅).
    { apply map_eq. intros k. rewrite (set_loop_lookup step key Hstep), Hl.
      rewrite bool_decide_eq_false_2; [done|]. apply not_elem_of_nil. }
    by rewrite Hm, map_size_empty.
  - rewrite bool_decide_eq_false_2 by done. apply Nat.ltb_lt.
    assert (Hne : size (foldl step ∅ l) <> 0%nat); [|lia].
    apply map_size_ne_0_lookup. exists k.
    rewrite (set_loop_lookup step key Hstep), Hl, bool_decide_eq_true_2; [done|]. by left.
Qed.

Lemma reportWalletSet_lookup walletFilter w :
  default false (reportWalletSet walletFilter !! w) = bool_decide (w ∈ walletFilter).
Proof.
  unfold reportWalletSet. rewrite (set_loop_lookup _ Some) by done.
  rewrite lookup_empty.
  assert (Hl : omap Some walletFilter = walletFilter).
  { induction walletFilter as [|x l IH]; [done|]. cbn. by rewrite IH. }
  rewrite Hl. by destruct (bool_decide (w ∈ walletFilter)).
Qed.

Lemma reportWalletSet_size walletFilter :
  (0 <? size (reportWalletSet walletFilter))%nat = negb (bool_decide (walletFilter = [])).
Proof.
  unfold reportWalletSet. rewrite (set_loop_size _ Some) by done.
  assert (Hl : omap Some walletFilter = walletFilter).
  { induction walletFilter as [|x l IH]; [done|]. cbn. by rewrite IH. }
  by rewrite Hl.
Qed.

(** The key under which a word of the commodity filter is kept. *)
Lemma reportCommoditySet_step (cset : gmap string bool) c :
  (let c := strings.ToLower (strings.TrimSpace c) in
   if decide (c = "") then cset else <[c := true]> cset)
  = match (let c := strings.ToLower (strings.TrimSpace c) in
           if decide (c = "") then None else Some c) with
    | Some k => <[k := true]> cset
    | None => cset
    end.
Proof. cbn zeta. by destruct (decide _). Qed.

Lemma reportCommoditySet_lookup commodityFilter k :
  default false (reportCommoditySet commodityFilter !! k)
  = bool_decide (k ∈ omap commodityKey commodityFilter).
Proof.
  unfold reportCommoditySet.
  rewrite (set_loop_lookup _ commodityKey) by (intros; apply reportCommoditySet_step).
  rewrite lookup_empty. by destruct (bool_decide _).
Qed.

Lemma reportCommoditySet_size commodityFilter :
  (0 <? size (reportCommoditySet commodityFilter))%nat
  = negb (bool_decide (omap commodityKey commodityFilter = [])).
Proof.
  unfold reportCommoditySet.
  by rewrite (set_loop_size _ commodityKey) by (intros; apply reportCommoditySet_step).
Qed.

Lemma report_wallet_test walletFilter w :
  (if (0 <? size (reportWalletSet walletFilter))%nat
   then default false (reportWalletSet walletFilter !! w) else true)
  = keepsWallet walletFilter w.
Proof.
  rewrite reportWalletSet_size, reportWalletSet_lookup. unfold keepsWallet.
  by destruct (bool_decide (walletFilter = [])).
Qed.

Lemma report_commodity_test commodityFilter c :
  (if (0 <? size (reportCommoditySet commodityFilter))%nat
   then default false (reportCommoditySet commodityFilter !! strings.ToLower c) else true)
  = keepsCommodity commodityFilter c.
Proof.
  rewrite reportCommoditySet_size, reportCommoditySet_lookup. unfold keepsCommodity.
  by destruct (bool_decide (omap commodityKey commodityFilter = [])).
Qed.

Lemma elem_of_keys {K A} `{Countable K} (m : gmap K A) k :
  k ∈ (map_to_list m).*1 <-> is_Some (m !! k).
Proof.
  rewrite list_elem_of_fmap. split.
  - intros ([k' x] & -> & Hin). apply elem_of_map_to_list in Hin. by eexists.
  - intros [x Hx]. exists (k, x). split; [done|]. by apply elem_of_map_to_list.
Qed.

Lemma elem_of_sort_Strings l x : x ∈ sort_Strings l <-> x ∈ l.
Proof. unfold sort_Strings. by rewrite merge_sort_Permutation. Qed.

Lemma elem_of_sort_Ints l x : x ∈ sort_Ints l <-> x ∈ l.
Proof. unfold sort_Ints. by rewrite merge_sort_Permutation. Qed.

Lemma elem_of_summaryCommodities commodityFilter wm c g' :
  (c, g') ∈ summaryCommodities (reportCommoditySet commodityFilter) wm
  <-> exists g, wm !! c = Some g /\ keepsCommodity commodityFilter c = true
                /\ g' = printedGains g.
Proof.
  unfold summaryCommodities. rewrite list_elem_of_In, in_map_iff. split.
  - intros (c' & [= -> <-] & Hin).
    apply list_elem_of_In, elem_of_sort_Strings, elem_of_filter_bool in Hin as [Hin Hkeep].
    rewrite report_commodity_test in Hkeep. apply elem_of_keys in Hin as [g Hg].
    exists g. by rewrite Hg.
  - intros (g & Hg & Hkeep & ->). exists c. rewrite Hg. split; [done|].
    apply list_elem_of_In, elem_of_sort_Strings, elem_of_filter_bool.
    rewrite report_commodity_test. split; [|done]. apply elem_of_keys. by eexists.
Qed.

Lemma elem_of_summaryWallets walletFilter cset ym w cl :
  (w, cl) ∈ summaryWallets (reportWalletSet walletFilter) cset ym
  <-> exists wm, ym !! w = Some wm /\ keepsWallet walletFilter w = true
                 /\ cl = summaryCommodities cset wm.
Proof.
  unfold summaryWallets. rewrite list_elem_of_In, in_map_iff. split.
  - intros (w' & [= -> <-] & Hin).
    apply list_elem_of_In, elem_of_sort_Strings, elem_of_filter_bool in Hin as [Hin Hkeep].
    rewrite report_wallet_test in Hkeep. apply elem_of_keys in Hin as [wm Hwm].
    exists wm. by rewrite Hwm.
  - intros (wm & Hwm & Hkeep & ->). exists w. rewrite Hwm. split; [done|].
    apply list_elem_of_In, elem_of_sort_Strings, elem_of_filter_bool.
    rewrite report_wallet_test. split; [|done]. apply elem_of_keys. by eexists.
Qed.

Lemma elem_of_printSummary state yearFilter walletFilter commodityFilter y wl :
  (y, wl) ∈ printSummary state yearFilter walletFilter commodityFilter
  <-> exists ym, TaxYears state !! y = Some ym /\ keepsYear yearFilter y = true
                 /\ wl = summaryWallets (reportWalletSet walletFilter)
                                        (reportCommoditySet commodityFilter) ym.
Proof.
  unfold printSummary. rewrite elem_of_flat_map. unfold keepsYear. split.
  - intros (y' & Hin & Hy). apply elem_of_sort_Ints, elem_of_keys in Hin as [ym Hym].
    destruct (yearFilter =? 0), (y' =? yearFilter) eqn:Hyf; cbn [negb andb] in Hy;
      try (by apply elem_of_nil in Hy);
      apply list_elem_of_singleton in Hy as [= <- ->]; exists ym; rewrite Hym; by rewrite ?Hyf.
  - intros (ym & Hym & Hkeep & ->). exists y. split.
    + apply elem_of_sort_Ints, elem_of_keys. by eexists.
    + rewrite Hym. destruct (yearFilter =? 0), (y =? yearFilter); cbn [negb andb orb] in *;
        try done; by apply list_elem_of_singleton.
Qed.

Lemma StringFixed2_close d : (Qabs (StringFixed2 d - d) <= 1 # 200)%Q.
Proof.
  unfold StringFixed2. pose proof (roundHalfAway_close (d * 100)) as H.
  set (r := inject_Z (roundHalfAway (d * 100))) in *.
  apply Qabs_Qle_condition in H as [H1 H2]. apply Qabs_Qle_condition.
  assert (Heq : (r / 100 - d == (r - d * 100) / 100)%Q) by field.
  rewrite Heq. split.
  - apply Qle_shift_div_l; [done|]. lra.
  - apply Qle_shift_div_r; [done|]. lra.
Qed.

#[export] Instance stringLe_total : Total stringLe.
Proof.
  intros a b. unfold stringLe. destruct (stringLess b a) eqn:H; [|by left].
  right. by apply stringLess_asym.
Qed.

#[export] Instance stringLe_trans : Transitive stringLe.
Proof. intros a b c Hab Hbc. unfold stringLe in *. by apply (stringLess_neg_trans c b a). Qed.

Lemma StronglySorted_strict {A} (R : A -> A -> Prop) (l : list A) :
  StronglySorted R l -> NoDup l -> StronglySorted (fun a b => R a b /\ a <> b) l.
Proof.
  induction 1 as [|x l Hl IH Hx]; intros Hnd; constructor.
  - apply IH. by apply NoDup_cons in Hnd as [_ ?].
  - apply NoDup_cons in Hnd as [Hnot _]. apply Forall_forall. intros y Hy.
    split; [by eapply Forall_forall in Hx|]. by intros ->.
Qed.

Lemma StronglySorted_filter_bool {A} (R : A -> A -> Prop) (f : A -> bool) (l : list A) :
  StronglySorted R l -> StronglySorted R (List.filter f l).
Proof.
  induction 1 as [|x l Hl IH Hx]; cbn; [constructor|].
  destruct (f x); [|done]. constructor; [done|].
  apply Forall_forall. intros y Hy. apply elem_of_filter_bool in Hy as [Hy _].
  by eapply Forall_forall in Hx.
Qed.

Lemma NoDup_filter_bool {A} (f : A -> bool) (l : list A) : NoDup l -> NoDup (List.filter f l).
Proof.
  induction 1 as [|x l Hx Hl IH]; cbn; [constructor|].
  destruct (f x); [|done]. constructor; [|done].
  intros Hin. apply elem_of_filter_bool in Hin as [Hin _]. done.
Qed.

Lemma sort_Strings_strict l :
  NoDup l -> StronglySorted (fun a b => stringLess a b = true) (sort_Strings l).
Proof.
  intros Hnd. unfold sort_Strings.
  eapply StronglySorted_impl;
    [|apply (StronglySorted_strict stringLe);
      [apply StronglySorted_merge_sort; apply _ | by rewrite merge_sort_Permutation]].
  intros a b [Hle Hne]. unfold stringLe in Hle.
  destruct (stringLess a b) eqn:Hab; [done|]. by destruct Hne; apply stringLess_total.
Qed.

Lemma sort_Ints_strict l : NoDup l -> StronglySorted Z.lt (sort_Ints l).
Proof.
  intros Hnd. unfold sort_Ints.
  eapply StronglySorted_impl;
    [|apply (StronglySorted_strict Z.le);
      [apply StronglySorted_merge_sort; apply _ | by rewrite merge_sort_Permutation]].
  intros a b [Hle Hne]. lia.
Qed.

Lemma fmap_fst_pairs {A B} (f : A -> B) (l : list A) : (map (fun x => (x, f x)) l).*1 = l.
Proof. induction l as [|x l IH]; [done|]. cbn. by rewrite IH. Qed.

Lemma summaryCommodities_sorted cset wm :
  StronglySorted (fun a b => stringLess a b = true) (summaryCommodities cset wm).*1.
Proof.
  unfold summaryCommodities. rewrite fmap_fst_pairs.
  apply sort_Strings_strict, NoDup_filter_bool, NoDup_fst_map_to_list.
Qed.

Lemma summaryWallets_sorted wset cset ym :
  StronglySorted (fun a b => stringLess a b = true) (summaryWallets wset cset ym).*1.
Proof.
  unfold summaryWallets. rewrite fmap_fst_pairs.
  apply sort_Strings_strict, NoDup_filter_bool, NoDup_fst_map_to_list.
Qed.

Lemma fmap_fst_flat_map_opt {A B} (skip : A -> bool) (f : A -> B) (l : list A) :
  (flat_map (fun x => if skip x then [] else [(x, f x)]) l).*1
  = List.filter (fun x => negb (skip x)) l.
Proof.
  induction l as [|x l IH]; [done|]. cbn [flat_map List.filter].
  rewrite fmap_app, IH. by destruct (skip x).
Qed.

Lemma elem_of_reportLines report y w c g :
  (y, w, c, g) ∈ reportLines report
  <-> exists wl cl, (y, wl) ∈ report /\ (w, cl) ∈ wl /\ (c, g) ∈ cl.
Proof.
  unfold reportLines. rewrite elem_of_flat_map. split.
  - intros ([y' wl] & Hy & H). apply elem_of_flat_map in H as ([w' cl] & Hw & H).
    apply list_elem_of_In, in_map_iff in H as ([c' g'] & [= <- <- <- <-] & Hc).
    apply list_elem_of_In in Hc. cbn [fst snd] in *. by exists wl, cl.
  - intros (wl & cl & Hy & Hw & Hc). exists (y, wl). split; [done|].
    apply elem_of_flat_map. exists (w, cl). split; [done|].
    apply list_elem_of_In, in_map_iff. exists (c, g). split; [done|].
    by apply list_elem_of_In.
Qed.

(** X15 (the report).  [printSummary] prints a line for a gains bucket
    (year, wallet, commodity) exactly when the bucket is in the state, the
    year is the one asked for (or none is asked for), the wallet is in the
    wallet list (or the list is empty) and the commodity, in lower case, is
    a word of the commodity list, trimmed and in lower case (or the list has
    no such word).  The amounts printed are those of the bucket rounded to
    two places, so within 0.005 of them.  The years come in ascending order,
    the wallets of a year and the commodities of a wallet in ascending order
    of their bytes, each once. *)
Theorem report_lists_the_filtered_buckets (state : State) (yearFilter : Z)
    (walletFilter commodityFilter : list string) :
  let report := printSummary state yearFilter walletFilter commodityFilter in
  (forall y w c g',
     (y, w, c, g') ∈ reportLines report <->
     exists g, gainsAt (TaxYears state) y w c = Some g
               /\ keepsYear yearFilter y = true /\ keepsWallet walletFilter w = true
               /\ keepsCommodity commodityFilter c = true
               /\ g' = printedGains g)
  /\ (forall g, (Qabs (Short (printedGains g) - Short g) <= 1 # 200)%Q
                /\ (Qabs (Long (printedGains g) - Long g) <= 1 # 200)%Q
                /\ (Qabs (Income (printedGains g) - Income g) <= 1 # 200)%Q)
  /\ StronglySorted Z.lt report.*1
  /\ Forall (fun yl =>
               StronglySorted (fun a b => stringLess a b = true) yl.2.*1
               /\ Forall (fun wl => StronglySorted (fun a b => stringLess a b = true) wl.2.*1)
                         yl.2) report.
Proof.
  intros report. split; [|split; [|split]].
  - intros y w c g'. rewrite elem_of_reportLines. unfold gainsAt. split.
    + intros (wl & cl & Hy & Hw & Hc).
      apply elem_of_printSummary in Hy as (ym & Hym & Hky & ->).
      apply elem_of_summaryWallets in Hw as (wm & Hwm & Hkw & ->).
      apply elem_of_summaryCommodities in Hc as (g & Hg & Hkc & ->).
      exists g. rewrite Hym. cbn. rewrite Hwm. cbn. done.
    + intros (g & Hg & Hky & Hkw & Hkc & ->).
      destruct (TaxYears state !! y) as [ym|] eqn:Hym; [|done]. cbn in Hg.
      destruct (ym !! w) as [wm|] eqn:Hwm; [|done]. cbn in Hg.
      eexists _, _. split; [|split].
      * apply elem_of_printSummary. by exists ym.
      * apply elem_of_summaryWallets. by exists wm.
      * apply elem_of_summaryCommodities. by exists g.
  - intros g. cbn [printedGains Short Long Income]. repeat split; apply StringFixed2_close.
  - subst report. unfold printSummary. rewrite fmap_fst_flat_map_opt.
    apply StronglySorted_filter_bool, sort_Ints_strict, NoDup_fst_map_to_list.
  - apply Forall_forall. intros [y wl] Hy.
    apply elem_of_printSummary in Hy as (ym & _ & _ & ->). cbn [snd]. split.
    + apply summaryWallets_sorted.
    + apply Forall_forall. intros [w cl] Hw.
      apply elem_of_summaryWallets in Hw as (wm & _ & _ & ->). cbn [snd].
      apply summaryCommodities_sorted.
Qed.

(** ** The filters of main *)











Section MainLedger.

Context {sorter : SliceSort} {txsorter : TxSliceSort}.


End MainLedger.



(** * Properties of the parsing pass on a file *)

Lemma submseteq_map {A B} (f : A -> B) (l k : list A) : l ⊆+ k -> map f l ⊆+ map f k.
Proof.
  induction 1 as [|x l k H IH|x y l|x l k H IH|l k m H1 IH1 H2 IH2]; cbn.
  - done.
  - by apply submseteq_skip.
  - apply submseteq_swap.
  - by apply submseteq_cons.
  - by etrans.
Qed.

Lemma submseteq_filter_bool {A} (f : A -> bool) (l k : list A) :
  l ⊆+ k -> List.filter f l ⊆+ List.filter f k.
Proof.
  induction 1 as [|x l k H IH|x y l|x l k H IH|l k m H1 IH1 H2 IH2]; cbn.
  - done.
  - destruct (f x); [by apply submseteq_skip|done].
  - destruct (f x), (f y); try done. apply submseteq_swap.
  - destruct (f x); [by apply submseteq_cons|done].
  - by etrans.
Qed.

Lemma filter_submseteq {A} (f : A -> bool) (l : list A) : List.filter f l ⊆+ l.
Proof.
  induction l as [|x l IH]; [done|]. cbn.
  destruct (f x); [by apply submseteq_skip|by apply submseteq_cons].
Qed.

Lemma flat_map_submseteq {A B} (f g : A -> list B) (l : list A) :
  (forall x, f x ⊆+ g x) -> flat_map f l ⊆+ flat_map g l.
Proof.
  intros H. induction l as [|x l IH]; [done|]. cbn. by apply submseteq_app.
Qed.

(** Taking the rows key by key, over keys that are all different, takes
    every row at most once. *)
Lemma group_by_key_submseteq {A} (key : A -> string) (keys : list string) (l : list A) :
  NoDup keys ->
  flat_map (fun k => List.filter (fun x => bool_decide (key x = k)) l) keys ⊆+ l.
Proof.
  revert l. induction keys as [|k keys IH]; intros l Hnd; cbn [flat_map].
  - apply submseteq_nil_l.
  - apply NoDup_cons in Hnd as [Hk Hnd].
    etrans; [|apply Permutation_submseteq; symmetry;
              apply (filter_split_perm (fun x => bool_decide (key x = k)) l)].
    apply submseteq_app; [done|].
    etrans; [|apply (IH (List.filter (fun x => negb (bool_decide (key x = k))) l) Hnd)].
    apply Permutation_submseteq, Permutation_refl'. apply flat_map_ext_elem. intros k' Hk'.
    rewrite filter_filter_and. apply filter_ext_in. intros x _.
    destruct (bool_decide_reflect (key x = k')) as [->|]; [|by rewrite andb_false_r].
    rewrite andb_true_r. rewrite bool_decide_eq_false_2; [done|]. by intros ->.
Qed.

Lemma filter_map_comm {A B} (f : B -> bool) (g : A -> B) (l : list A) :
  List.filter f (map g l) = map g (List.filter (fun x => f (g x)) l).
Proof. induction l as [|x l IH]; [done|]. cbn. destruct (f (g x)); cbn; by rewrite IH. Qed.

Lemma filter_flat_map {A B} (f : B -> bool) (g : A -> list B) (l : list A) :
  List.filter f (flat_map g l) = flat_map (fun x => List.filter f (g x)) l.
Proof. induction l as [|x l IH]; [done|]. cbn. by rewrite List.filter_app, IH. Qed.

Lemma indexFrom_fst i rows : map fst (indexFrom i rows) = rows.
Proof. revert i. induction rows as [|rec rows IH]; intros i; [done|]. cbn. by rewrite IH. Qed.

(** A group holds the rows of its key, in the order of the file. *)
Lemma groupStep_fold rows : forall m0 i0 k,
  default [] ((foldl groupStep (m0, i0) rows).1 !! k)
  = default [] (m0 !! k)
    ++ map fst (List.filter (fun p => bool_decide (groupKey p.1 p.2 = k)) (indexFrom i0 rows)).
Proof.
  induction rows as [|rec rows IH]; intros m0 i0 k; cbn [foldl indexFrom].
  - cbn. by rewrite app_nil_r.
  - destruct (groupStep (m0, i0) rec) as [m1 i1] eqn:Hstep. rewrite IH. clear IH.
    unfold groupStep in Hstep. cbn [fst snd] in Hstep. injection Hstep as <- <-.
    destruct (decide (groupKey rec i0 = k)) as [<-|Hne].
    + rewrite lookup_insert_eq, filter_cons_true by (cbn; by rewrite bool_decide_eq_true_2).
      cbn -[groupKey indexFrom firstNonEmpty]. by rewrite <- app_assoc.
    + rewrite lookup_insert_ne by done.
      by rewrite filter_cons_false by (cbn; by rewrite bool_decide_eq_false_2).
Qed.

Lemma groupRows_spec rows k :
  default [] (groupRows rows !! k)
  = map fst (List.filter (fun p => bool_decide (groupKey p.1 p.2 = k)) (indexFrom 0 rows)).
Proof. unfold groupRows. rewrite groupStep_fold. by rewrite lookup_empty. Qed.

Lemma cryptoRows_map_fst (l : list (RawRecord * nat)) :
  cryptoRows (map fst l)
  = map fst (List.filter (fun p => negb (isFiat (firstNonEmpty p.1 ["asset"; "pair"; "symbol"])))
                         l).
Proof.
  unfold cryptoRows.
  apply (filter_map_comm (fun rec => negb (isFiat (firstNonEmpty rec ["asset"; "pair"; "symbol"])))
                         fst l).
Qed.

Lemma groups_submseteq rows groupOrder :
  NoDup groupOrder ->
  flat_map (fun k => cryptoRows (default [] (groupRows rows !! k))) groupOrder
  ⊆+ cryptoRows rows.
Proof.
  intros Hnd.
  replace (cryptoRows rows) with (cryptoRows (map fst (indexFrom 0 rows)))
    by (by rewrite indexFrom_fst).
  rewrite cryptoRows_map_fst.
  etrans; [|apply submseteq_map, submseteq_filter_bool,
             (group_by_key_submseteq (fun p => groupKey p.1 p.2) groupOrder _ Hnd)].
  rewrite filter_flat_map, map_flat_map_list.
  apply Permutation_submseteq, Permutation_refl'. apply flat_map_ext. intros k.
  by rewrite groupRows_spec, cryptoRows_map_fst.
Qed.

Section ParsingFileFacts.

Context {lib : ParseLib}.

Lemma krakenTxs_flat path defaultWallets verbose groupOrder assetOrder rows :
  krakenTxs path defaultWallets verbose groupOrder assetOrder rows
  = (flat_map (fun key => (krakenGroupTxs path defaultWallets verbose (assetOrder key)
                             (default [] (groupRows rows !! key))).1) groupOrder,
     flat_map (fun key => (krakenGroupTxs path defaultWallets verbose (assetOrder key)
                             (default [] (groupRows rows !! key))).2) groupOrder).
Proof.
  unfold krakenTxs.
  by rewrite (foldl_pairs (fun key => krakenGroupTxs path defaultWallets verbose
                                        (assetOrder key) (default [] (groupRows rows !! key)))).
Qed.

Lemma rowTxs_raw path defaultWallets verbose inc g rec :
  map Raw (rowTxs path defaultWallets verbose inc g rec).1 ⊆+ [rec]
  /\ (verbose = false -> (rowTxs path defaultWallets verbose inc g rec).2 = []).
Proof.
  pose proof (rowTxs_spec path defaultWallets verbose inc g rec) as Hs. cbn zeta in Hs.
  destruct (parseKrakenRecord rec path defaultWallets).
  - destruct (inc && negb (positiveRow rec)).
    + rewrite Hs. split; [apply submseteq_nil_l|done].
    + destruct Hs as (tx & -> & _ & _ & Hr & _). cbn. by rewrite Hr.
  - destruct Hs as [-> Hlog]. split; [apply submseteq_nil_l|done].
Qed.

Lemma rows_raw_submseteq (f : RawRecord -> list Tx) rows :
  (forall rec, map Raw (f rec) ⊆+ [rec]) -> map Raw (flat_map f rows) ⊆+ rows.
Proof.
  intros H. induction rows as [|rec rows IH]; [done|]. cbn [flat_map].
  rewrite map_app. by apply (submseteq_app _ [rec]).
Qed.

Lemma rows_log_nil {A} (f : A -> list ParseLog) (rows : list A) :
  (forall rec, f rec = []) -> flat_map f rows = [].
Proof. intros H. induction rows as [|rec rows IH]; [done|]. cbn. by rewrite H, IH. Qed.

(** A group gives at most one transaction for each of its crypto rows. *)
Lemma group_raw_submseteq path defaultWallets verbose assets group :
  NoDup assets ->
  map Raw (krakenGroupTxs path defaultWallets verbose assets group).1 ⊆+ cryptoRows group
  /\ (verbose = false -> (krakenGroupTxs path defaultWallets verbose assets group).2 = []).
Proof.
  intros Hnd. rewrite krakenGroupTxs_cases.
  assert (Hrows : forall inc,
    map Raw (flat_map (fun rec => (rowTxs path defaultWallets verbose inc (totalsOf group)
                                          rec).1) (cryptoRows group)) ⊆+ cryptoRows group
    /\ (verbose = false ->
        flat_map (fun rec => (rowTxs path defaultWallets verbose inc (totalsOf group) rec).2)
                 (cryptoRows group) = [])).
  { intros inc. split.
    - apply rows_raw_submseteq. intros rec. apply rowTxs_raw.
    - intros Hv. apply rows_log_nil. intros rec. by apply rowTxs_raw. }
  destruct (groupKind group) as [[]|]; cbn [fst snd]; try apply Hrows.
  - split; [|done]. rewrite map_flat_map_list.
    etrans; [|apply (group_by_key_submseteq
                       (fun rec => strings.ToLower (rowAsset rec)) assets _ Hnd)].
    etrans; [|apply flat_map_submseteq; intros a;
               apply (filter_submseteq positiveRow)].
    apply Permutation_submseteq, Permutation_refl'. apply flat_map_ext. intros a.
    destruct (posNegMaps_spec (cryptoRows group) a) as [-> _].
    rewrite !map_map. cbn [transferOf Raw ri_rec rowInfoOf]. rewrite map_id.
    rewrite filter_filter_and. apply filter_ext_in. intros rec _. apply andb_comm.
  - split; [apply submseteq_nil_l|done].
Qed.

Lemma genericRowTxs_raw path defaultWallets verbose rec :
  map Raw (genericRowTxs path defaultWallets verbose rec).1
  ⊆+ genericCryptoRows [rec]
  /\ (verbose = false -> (genericRowTxs path defaultWallets verbose rec).2 = []).
Proof.
  unfold genericRowTxs, genericCryptoRows. cbn [List.filter].
  destruct (isFiat _); cbn [negb]; [done|].
  destruct (parseGenericRecord rec path defaultWallets) as [tx|err] eqn:Hp; cbn.
  - apply parseGenericRecord_inl in Hp as [_ ->]. done.
  - split; [apply submseteq_nil_l|]. by intros ->.
Qed.

End ParsingFileFacts.

(** X17 (every row once).  Whatever the order in which Go ranges over the
    groups of a file and over the assets of a group (orders without
    repetition), the transactions that [parseCSVFile] makes of the rows of
    a file come each from a row of its own that is not a fiat row: no row
    gives two transactions, and no transaction is made up.  Without -v the
    parsing pass logs nothing. *)
Theorem every_transaction_has_its_own_row {lib : ParseLib}
    (path : string) (defaultWallets : list string) (verbose : bool)
    (groupOrder : list string) (assetOrder : string -> list string)
    (format : string) (rows : list RawRecord) :
  NoDup groupOrder ->
  (forall key, NoDup (assetOrder key)) ->
  let out := parseRows path defaultWallets verbose groupOrder assetOrder format rows in
  map Raw out.1 ⊆+ (if decide (format = "kraken") then cryptoRows rows
                    else genericCryptoRows rows)
  /\ (verbose = false -> out.2 = []).
Proof.
  intros Hgroups Hassets out. subst out. unfold parseRows. cbn [fst snd].
  destruct (decide (format = "kraken")) as [Hf|Hf].
  - rewrite krakenTxs_flat. cbn [fst snd]. split.
    + rewrite map_flat_map_list. etrans; [|apply (groups_submseteq rows groupOrder Hgroups)].
      apply flat_map_submseteq. intros key. by apply group_raw_submseteq.
    + intros ->. rewrite app_nil_r. apply rows_log_nil. intros key.
      by apply group_raw_submseteq.
  - rewrite genericTxs_flat. cbn [fst snd]. split.
    + rewrite map_flat_map_list. unfold genericCryptoRows.
      induction rows as [|rec rows IH]; [done|]. cbn [flat_map].
      change (rec :: rows) with ([rec] ++ rows). rewrite List.filter_app.
      apply submseteq_app; [|done]. apply genericRowTxs_raw.
    + intros ->. rewrite app_nil_r. apply rows_log_nil. intros rec.
      by apply genericRowTxs_raw.
Qed.

(** A purchase of 1 BTC for 400 EUR: two rows of one reference id, one
    transaction. *)
Lemma every_transaction_has_its_own_row_witness :
  let rows := [sampleRow "trade" "" "EUR" "spot" "-400" "2";
               sampleRow "trade" "" "BTC" "spot" "1" "0"] in
  let out := parseRows (lib := sampleLib) "ledger.csv" [] false ["R1"] (fun _ => [])
                       "kraken" rows in
  NoDup ["R1"]
  /\ map Raw out.1 ⊆+ cryptoRows rows
  /\ out.2 = []
  /\ length out.1 = 1%nat.
Proof.
  intros rows out.
  assert (Hnd : NoDup ["R1"]) by (apply NoDup_singleton).
  destruct (every_transaction_has_its_own_row (lib := sampleLib) "ledger.csv" [] false ["R1"]
              (fun _ => []) "kraken" rows Hnd (fun _ => NoDup_nil_2)) as [Hraw Hlog].
  split; [done|]. split; [exact Hraw|]. split; [by apply Hlog|]. vm_compute. reflexivity.
Defined.
